(** * auroraTracker: the decision core of [main.py], embedded and verified

    [AuroraSystem] polls the planetary K index, maps it to the lowest
    latitude at which aurora is visible, and decides whether to raise an
    alert, subject to a cooldown.  The embedding follows [main.py] method
    by method.

    Numbers.  Python floats are modelled by the rational they denote
    ([Q]); Python compares a float with an int by exact value, so the
    comparisons of the source are the comparisons of [Q].  The table of
    the visibility model holds Python ints ([Z]).  NaN and the infinities
    are outside the model. *)

From Stdlib Require Import ZArith QArith Qabs Lqa Lia Bool List String Ascii.
From Stdlib Require Import DecimalString Qround.
Import ListNotations.

Open Scope Z_scope.
Open Scope Q_scope.
Open Scope string_scope.

Set Implicit Arguments.

(* ================================================================== *)
(** ** Numeric helpers *)

(** [a >= b] and [a > b] on floats, as booleans. *)
Definition Qge_bool (a b : Q) : bool := Qle_bool b a.
Definition Qgt_bool (a b : Q) : bool := negb (Qle_bool a b).

(** The nearest integer to a non-negative rational, ties to even: the
    rounding of Python's fixed-point formatting. *)
Definition round_half_even (q : Q) : Z :=
  let n := Qnum q in
  let d := Zpos (Qden q) in
  let fl := (n / d)%Z in
  let twice_rem := (2 * (n mod d))%Z in
  if (twice_rem <? d)%Z then fl
  else if (d <? twice_rem)%Z then (fl + 1)%Z
  else if Z.even fl then fl else (fl + 1)%Z.

Definition string_of_Z (z : Z) : string :=
  NilZero.string_of_int (Z.to_int z).

(** [f"{x:.1f}"]: one digit after the point, sign kept. *)
Definition format_1f (x : Q) : string :=
  let tenths := round_half_even (Qabs x * 10) in
  (if Qgt_bool 0 x then "-" else "")
    ++ string_of_Z (tenths / 10) ++ "." ++ string_of_Z (tenths mod 10).

(* ================================================================== *)
(** ** The visibility model: [calculate_aurora_visibility] *)

(** [user_location], a dict with keys ['lat'] and ['lon']. *)
Record Location : Type := { lat : Q; lon : Q }.

(** The dict literal of the method, in the order it is written. *)
Definition visibility_map : list (Z * Z) :=
  [ (9, 35); (8, 40); (7, 45); (6, 50); (5, 55);
    (4, 60); (3, 65); (2, 70); (1, 75); (0, 80) ]%Z.

Definition keys (d : list (Z * Z)) : list Z := map fst d.

(** [d[k]]; [None] stands for [KeyError]. *)
Fixpoint dict_get (k : Z) (d : list (Z * Z)) : option Z :=
  match d with
  | [] => None
  | (k', v) :: d' => if (k =? k')%Z then Some v else dict_get k d'
  end.

(** [sorted(xs, reverse=True)] by insertion. *)
Fixpoint insert_desc (x : Z) (xs : list Z) : list Z :=
  match xs with
  | [] => [x]
  | y :: ys => if (y <=? x)%Z then x :: xs else y :: insert_desc x ys
  end.

Definition sorted_reverse (xs : list Z) : list Z :=
  fold_right insert_desc [] xs.

(** The [for] loop with its [break]: the first level not above
    [kp_index] fixes the latitude; without a match the initial value
    stays. *)
Fixpoint scan_levels (kp_index : Q) (levels : list Z) (visible_latitude : Z) : Z :=
  match levels with
  | [] => visible_latitude
  | kp_level :: rest =>
      if Qge_bool kp_index (inject_Z kp_level) then
        match dict_get kp_level visibility_map with
        | Some v => v
        | None => visible_latitude
        end
      else scan_levels kp_index rest visible_latitude
  end.

Definition degree_N : string := "°N".

(** Returns [(is_visible, status, visible_latitude)]. *)
Definition calculate_aurora_visibility (user_location : Location) (kp_index : Q)
  : bool * string * Z :=
  let user_lat := lat user_location in
  let visible_latitude :=
    scan_levels kp_index (sorted_reverse (keys visibility_map)) 80%Z in
  let is_visible := Qge_bool user_lat (inject_Z visible_latitude) in
  let status :=
    "Kp=" ++ format_1f kp_index ++ ", Visible south to "
          ++ string_of_Z visible_latitude ++ degree_N in
  (is_visible, status, visible_latitude).

Definition verdict_visible (v : bool * string * Z) : bool := fst (fst v).
Definition verdict_status (v : bool * string * Z) : string := snd (fst v).
Definition verdict_boundary (v : bool * string * Z) : Z := snd v.

(** The site [main.py] is run for. *)
Definition peoria : Location := {| lat := 406664 # 10000; lon := - (895890 # 10000) |}.

(* ================================================================== *)
(** ** The object, its environment and the monad of its methods *)

(** [email_config], a dict with these five keys, or [None]. *)
Record EmailConfig : Type := {
  from_email : string;
  password : string;
  to_email : string;
  smtp_server : string;
  smtp_port : Z
}.

(** The fields [__init__] sets.  [last_alert_time] is the only one a
    method assigns afterwards. *)
Record AuroraSystem : Type := {
  user_location : Location;
  kp_threshold : Z;
  last_alert_time : option Q;
  alert_cooldown : Z;
  email_config : option EmailConfig
}.

(** [__init__]: threshold 4, no alert yet, cooldown 3600 seconds. *)
Definition init (user_location : Location) (email_config : option EmailConfig)
  : AuroraSystem :=
  {| user_location := user_location;
     kp_threshold := 4;
     last_alert_time := None;
     alert_cooldown := 3600;
     email_config := email_config |}.

(** A [datetime] value, as [strptime] builds it. *)
Record DateTime : Type := {
  year : Z; month : Z; day : Z; hour : Z; minute : Z; second : Z
}.

(** One row of the NOAA product: the time tag, and what [float()] makes
    of the Kp field ([None] when the conversion raises). *)
Record Entry : Type := { time_tag : string; kp_field : option Q }.

(** What [requests.get] hands back: the status code and the decoded
    body ([None] when [response.json()] raises). *)
Record Response : Type := { status_code : Z; json : option (list Entry) }.

(** Everything outside the process.  The n-th call of each kind is
    answered by the oracle at index n.
    - [strptime]/[strftime]: the datetime library at the two formats
      [format_timestamp] uses; [None] is [ValueError].
    - [http_get]: [None] when [requests.get] raises.
    - [time_time]: the readings of [time.time()].
    - [save_map]: the name of the saved map, [None] when saving or
      opening it raises.
    - [smtp_session]: [false] when anything in the mail session
      raises. *)
Record Env : Type := {
  strptime : string -> option DateTime;
  strftime : DateTime -> string;
  http_get : nat -> option Response;
  time_time : nat -> Q;
  save_map : nat -> option string;
  smtp_session : nat -> bool
}.

Inductive MessageKind : Type := AlertMail | DailyReportMail | StartupMail.

(** What the process does at its boundary, in order.  Progress
    [print]s are not recorded; the console alert is. *)
Inductive Event : Type :=
| EConsoleAlert (kp_index : Q) (visibility_info : string)
| EMap (kp_index : Q) (visible_latitude : Z) (is_visible : bool)
       (formatted_timestamp : string) (saved : option string)
| ESmtp (kind : MessageKind) (subject : string) (map_file : option string)
        (delivered : bool).

Record World : Type := {
  obj : AuroraSystem;
  http_calls : nat;
  clock_calls : nat;
  map_calls : nat;
  smtp_calls : nat;
  trace : list Event
}.

Definition boot (s : AuroraSystem) : World :=
  {| obj := s; http_calls := 0; clock_calls := 0; map_calls := 0;
     smtp_calls := 0; trace := [] |}.

(** The outcome of a call: a value, or a raised exception (its
    message).  The world survives a raise, as Python's heap does. *)
Inductive Exc (A : Type) : Type :=
| Returned (a : A)
| Raised (msg : string).
Arguments Raised {A} msg.

(** [AuroraSystem(user_location, email_config)]: [__init__] assigns the
    fields; it has no check and no [raise]. *)
Definition construct (user_location : Location) (email_config : option EmailConfig)
  : Exc AuroraSystem :=
  Returned (init user_location email_config).

Definition M (A : Type) : Type := World -> Exc A * World.

Definition ret {A} (a : A) : M A := fun w => (Returned a, w).

Definition bind {A B} (m : M A) (k : A -> M B) : M B :=
  fun w =>
    match m w with
    | (Returned a, w') => k a w'
    | (Raised e, w') => (Raised e, w')
    end.

Definition raise {A} (msg : string) : M A := fun w => (Raised msg, w).

(** [try: body  except Exception as e: handler(e)]. *)
Definition try_except {A} (body : M A) (handler : string -> M A) : M A :=
  fun w =>
    match body w with
    | (Returned a, w') => (Returned a, w')
    | (Raised e, w') => handler e w'
    end.

Declare Scope py_scope.
Delimit Scope py_scope with py.
Notation "x <- m ;; k" := (bind m (fun x => k))
  (at level 100, m at next level, right associativity) : py_scope.
Notation "' p <- m ;; k" := (bind m (fun p => k))
  (at level 100, p pattern, m at next level, right associativity) : py_scope.
Notation "m ;;; k" := (bind m (fun _ => k))
  (at level 100, right associativity) : py_scope.
Open Scope py_scope.

Definition get_self : M AuroraSystem := fun w => (Returned (obj w), w).

Definition emit (e : Event) : M unit := fun w =>
  (Returned tt,
   {| obj := obj w; http_calls := http_calls w; clock_calls := clock_calls w;
      map_calls := map_calls w; smtp_calls := smtp_calls w;
      trace := trace w ++ [e] |}).

(** [self.last_alert_time = t]. *)
Definition set_last_alert_time (t : Q) : M unit := fun w =>
  let s := obj w in
  (Returned tt,
   {| obj := {| user_location := user_location s;
                kp_threshold := kp_threshold s;
                last_alert_time := Some t;
                alert_cooldown := alert_cooldown s;
                email_config := email_config s |};
      http_calls := http_calls w; clock_calls := clock_calls w;
      map_calls := map_calls w; smtp_calls := smtp_calls w;
      trace := trace w |}).

Definition tick_http (w : World) : World :=
  {| obj := obj w; http_calls := S (http_calls w); clock_calls := clock_calls w;
     map_calls := map_calls w; smtp_calls := smtp_calls w; trace := trace w |}.

Definition tick_clock (w : World) : World :=
  {| obj := obj w; http_calls := http_calls w; clock_calls := S (clock_calls w);
     map_calls := map_calls w; smtp_calls := smtp_calls w; trace := trace w |}.

Definition tick_map (e : Event) (w : World) : World :=
  {| obj := obj w; http_calls := http_calls w; clock_calls := clock_calls w;
     map_calls := S (map_calls w); smtp_calls := smtp_calls w;
     trace := trace w ++ [e] |}.

Definition tick_smtp (e : Event) (w : World) : World :=
  {| obj := obj w; http_calls := http_calls w; clock_calls := clock_calls w;
     map_calls := map_calls w; smtp_calls := S (smtp_calls w);
     trace := trace w ++ [e] |}.

(** [xs[-1]]. *)
Fixpoint last_entry {A} (xs : list A) : option A :=
  match xs with
  | [] => None
  | [x] => Some x
  | _ :: rest => last_entry rest
  end.

(** The branch a condition check takes.  The Python method returns
    [None] on every path; the model returns the name of the path. *)
Inductive Decision : Type := NoData | Suppressed | ReportOnly | Alert.

Section Methods.

Variable env : Env.

(** *** Calls that leave the process *)

Definition requests_get : M Response := fun w =>
  match http_get env (http_calls w) with
  | Some response => (Returned response, tick_http w)
  | None => (Raised "requests.get", tick_http w)
  end.

Definition response_json (response : Response) : M (list Entry) :=
  match json response with
  | Some data => ret data
  | None => raise "response.json"
  end.

Definition float_of (e : Entry) : M Q :=
  match kp_field e with
  | Some kp_value => ret kp_value
  | None => raise "float"
  end.

Definition datetime_strptime (s : string) : M DateTime :=
  match strptime env s with
  | Some dt => ret dt
  | None => raise "strptime"
  end.

Definition time_now : M Q := fun w =>
  (Returned (time_time env (clock_calls w)), tick_clock w).

(** [m.save(map_file)] and [webbrowser.open], with what the map
    shows. *)
Definition folium_save (kp_index : Q) (visible_latitude : Z) (is_visible : bool)
           (formatted_timestamp : string) : M string := fun w =>
  let saved := save_map env (map_calls w) in
  let w' := tick_map (EMap kp_index visible_latitude is_visible
                           formatted_timestamp saved) w in
  match saved with
  | Some map_file => (Returned map_file, w')
  | None => (Raised "map", w')
  end.

(** Building the message, attaching the map, and the SMTP session. *)
Definition smtp_send (kind : MessageKind) (subject : string)
           (map_file : option string) : M unit := fun w =>
  let ok := smtp_session env (smtp_calls w) in
  let w' := tick_smtp (ESmtp kind subject map_file ok) w in
  if ok then (Returned tt, w') else (Raised "smtp", w').

(** *** [get_kp_index] *)

Definition get_kp_index : M (option Q * option string) :=
  try_except
    (response <- requests_get ;;
     if (status_code response =? 200)%Z then
       data <- response_json response ;;
       if (1 <? List.length data)%nat then
         match last_entry data with
         | Some latest_entry =>
             kp_value <- float_of latest_entry ;;
             let timestamp := time_tag latest_entry in
             ret (Some kp_value, Some timestamp)
         | None => raise "IndexError"
         end
       else ret (None, None)
     else ret (None, None))
    (fun _ => ret (None, None)).

(** *** [format_timestamp] *)

Definition format_timestamp (timestamp_str : option string) : M string :=
  match timestamp_str with
  | None => ret "Unknown"
  | Some s =>
      if String.eqb s "Unknown" then ret "Unknown"
      else
        try_except
          (dt <- datetime_strptime s ;;
           ret (strftime env dt))
          (fun _ => ret s)
  end.

(** *** [create_aurora_map] *)

Definition create_aurora_map : M string :=
  ' (kp_index, timestamp) <- get_kp_index ;;
  let '(kp_index, timestamp) :=
    match kp_index with
    | None => (0, Some "Unknown")
    | Some k => (k, timestamp)
    end in
  formatted_timestamp <- format_timestamp timestamp ;;
  s <- get_self ;;
  let '(is_visible, visibility_info, visible_latitude) :=
    calculate_aurora_visibility (user_location s) kp_index in
  map_file <- folium_save kp_index visible_latitude is_visible
                          formatted_timestamp ;;
  ret map_file.

(** *** The three mails *)

Definition send_email_alert (kp_index : Q) (visibility_info : string)
           (map_file : string) : M bool :=
  s <- get_self ;;
  match email_config s with
  | None => ret false
  | Some _ =>
      try_except
        (smtp_send AlertMail
           ("Aurora Alert! Kp=" ++ format_1f kp_index
              ++ " - Visible from your location!")
           (Some map_file) ;;;
         ret true)
        (fun _ => ret false)
  end.


Definition send_startup_email : M bool :=
  s <- get_self ;;
  match email_config s with
  | None => ret false
  | Some _ =>
      try_except
        (smtp_send StartupMail "Aurora Monitoring System Started" None ;;;
         ret true)
        (fun _ => ret false)
  end.

(** *** [notify_aurora_console] and [check_aurora_conditions] *)

Definition notify_aurora_console (kp_index : Q) (visibility_info : string)
  : M unit :=
  emit (EConsoleAlert kp_index visibility_info).

(** The last conjunct of [should_alert]: the clock is read only when
    a previous alert exists. *)
Definition cooldown_over (s : AuroraSystem) : M bool :=
  match last_alert_time s with
  | None => ret true
  | Some last =>
      now <- time_now ;;
      ret (Qgt_bool (now - last) (inject_Z (alert_cooldown s)))
  end.

Definition check_aurora_conditions : M Decision :=
  ' (kp_index, timestamp) <- get_kp_index ;;
  match kp_index with
  | None => ret NoData
  | Some kp_index =>
      formatted_timestamp <- format_timestamp timestamp ;;
      s <- get_self ;;
      let '(is_visible, visibility_info, _) :=
        calculate_aurora_visibility (user_location s) kp_index in
      let threshold_met :=
        Qge_bool kp_index (inject_Z (kp_threshold s)) && is_visible in
      should_alert <-
        (if threshold_met then cooldown_over s else ret false) ;;
      if should_alert then
        notify_aurora_console kp_index visibility_info ;;;
        now <- time_now ;;
        set_last_alert_time now ;;;
        map_file <- create_aurora_map ;;
        match email_config s with
        | Some _ =>
            send_email_alert kp_index visibility_info map_file ;;;
            ret Alert
        | None => ret Alert
        end
      else
        create_aurora_map ;;;
        ret (if threshold_met then Suppressed else ReportOnly)
  end.

(** *** [run_once] *)

Definition run_once : M Decision :=
  s <- get_self ;;
  match email_config s with
  | Some _ => send_startup_email ;;; check_aurora_conditions
  | None => check_aurora_conditions
  end.

End Methods.

(* ================================================================== *)
(** ** A sample environment *)

(** The value of a decimal digit. *)
Definition digit_of (c : ascii) : option Z :=
  let n := Z.of_nat (nat_of_ascii c) in
  if ((48 <=? n) && (n <=? 57))%Z then Some (n - 48)%Z else None.

(** A field of exactly [width] digits at the head of [s]; returns its
    value and the rest. *)
Fixpoint take_digits (width : nat) (acc : Z) (s : string) : option (Z * string) :=
  match width with
  | O => Some (acc, s)
  | S width' =>
      match s with
      | String c rest =>
          match digit_of c with
          | Some d => take_digits width' (10 * acc + d)%Z rest
          | None => None
          end
      | EmptyString => None
      end
  end.

Definition expect (c : ascii) (s : string) : option string :=
  match s with
  | String c' rest => if Ascii.eqb c c' then Some rest else None
  | EmptyString => None
  end.

Definition is_leap (y : Z) : bool :=
  ((y mod 4 =? 0) && (negb (y mod 100 =? 0) || (y mod 400 =? 0)))%Z.

Definition days_in_month (y m : Z) : Z :=
  if (m =? 2)%Z then (if is_leap y then 29 else 28)%Z
  else if ((m =? 4) || (m =? 6) || (m =? 9) || (m =? 11))%Z then 30%Z
  else 31%Z.

(** [datetime.strptime(s, "%Y-%m-%d %H:%M:%S")] on the zero-padded
    spelling [YYYY-MM-DD HH:MM:SS]; anything else is refused.  (The
    library also takes unpadded fields; the sample does not.) *)
Definition strptime_padded (s : string) : option DateTime :=
  match take_digits 4 0 s with
  | Some (y, s1) =>
  match expect "-" s1 with
  | Some s2 =>
  match take_digits 2 0 s2 with
  | Some (mo, s3) =>
  match expect "-" s3 with
  | Some s4 =>
  match take_digits 2 0 s4 with
  | Some (d, s5) =>
  match expect " " s5 with
  | Some s6 =>
  match take_digits 2 0 s6 with
  | Some (h, s7) =>
  match expect ":" s7 with
  | Some s8 =>
  match take_digits 2 0 s8 with
  | Some (mi, s9) =>
  match expect ":" s9 with
  | Some s10 =>
  match take_digits 2 0 s10 with
  | Some (sec, EmptyString) =>
      if ((1 <=? y) && (1 <=? mo) && (mo <=? 12) && (1 <=? d)
          && (d <=? days_in_month y mo) && (h <=? 23) && (mi <=? 59)
          && (sec <=? 59))%Z
      then Some {| year := y; month := mo; day := d;
                   hour := h; minute := mi; second := sec |}
      else None
  | _ => None end
  | None => None end
  | None => None end
  | None => None end
  | None => None end
  | None => None end
  | None => None end
  | None => None end
  | None => None end
  | None => None end
  | None => None end.

Fixpoint zeros (n : nat) : string :=
  match n with
  | O => ""
  | S n' => String "0" (zeros n')
  end.

(** [z] in decimal, zero-padded to [width] digits. *)
Definition pad (width : nat) (z : Z) : string :=
  let digits := string_of_Z z in
  zeros (width - String.length digits)%nat ++ digits.

(** [dt.strftime("%Y-%m-%d %I:%M %p UTC")]. *)
Definition strftime_12h (dt : DateTime) : string :=
  let h12 := (if (hour dt mod 12 =? 0)%Z then 12 else hour dt mod 12)%Z in
  pad 4 (year dt) ++ "-" ++ pad 2 (month dt) ++ "-" ++ pad 2 (day dt) ++ " "
      ++ pad 2 h12 ++ ":" ++ pad 2 (minute dt) ++ " "
      ++ (if (hour dt <? 12)%Z then "AM" else "PM") ++ " UTC".

(** A NOAA body: the header row, then one reading. *)
Definition noaa_body (time_tag : string) (kp : Q) : list Entry :=
  [ {| time_tag := "time_tag"; kp_field := None |};
    {| time_tag := time_tag; kp_field := Some kp |} ].

(** An environment in which every fetch yields the reading [kp] tagged
    [time_tag], the clock shows [clock], every map is saved and every
    mail session ends as [mail_ok]. *)
Definition steady_env (time_tag : string) (kp : Q) (clock : nat -> Q)
           (mail_ok : bool) : Env :=
  {| strptime := strptime_padded;
     strftime := strftime_12h;
     http_get := fun _ =>
       Some {| status_code := 200; json := Some (noaa_body time_tag kp) |};
     time_time := clock;
     save_map := fun _ => Some "aurora_forecast.html";
     smtp_session := fun _ => mail_ok |}.


Definition gmail : EmailConfig :=
  {| from_email := "observer@example.org";
     password := "app-password";
     to_email := "observer@example.org";
     smtp_server := "smtp.gmail.com";
     smtp_port := 587 |}.

(* ================================================================== *)
(** ** Vocabulary of the statements *)

(** The latitude the loop settles on. *)
Definition boundary_latitude (kp_index : Q) : Z :=
  scan_levels kp_index (sorted_reverse (keys visibility_map)) 80%Z.

(** The spec's words: [L] is the largest tabulated level that is at
    most [kp_index]. *)
Definition largest_level_le (kp_index : Q) (L : Z) : Prop :=
  In L (keys visibility_map)
  /\ inject_Z L <= kp_index
  /\ forall L', In L' (keys visibility_map) ->
                inject_Z L' <= kp_index -> (L' <= L)%Z.

(** Strictly descending lists. *)
Inductive descending : list Z -> Prop :=
| desc_nil : descending []
| desc_cons x xs :
    (forall y, In y xs -> (y < x)%Z) -> descending xs -> descending (x :: xs).

(** What the fetch numbered [n] yields: [get_kp_index] without the
    monad. *)
Definition fetch_result (env : Env) (n : nat) : option Q * option string :=
  match http_get env n with
  | Some response =>
      if (status_code response =? 200)%Z then
        match json response with
        | Some data =>
            if (1 <? List.length data)%nat then
              match last_entry data with
              | Some latest_entry =>
                  match kp_field latest_entry with
                  | Some kp_value => (Some kp_value, Some (time_tag latest_entry))
                  | None => (None, None)
                  end
              | None => (None, None)
              end
            else (None, None)
        | None => (None, None)
        end
      else (None, None)
  | None => (None, None)
  end.

(** What [format_timestamp] returns. *)
Definition formatted (env : Env) (timestamp_str : option string) : string :=
  match timestamp_str with
  | None => "Unknown"
  | Some s =>
      if String.eqb s "Unknown" then "Unknown"
      else match strptime env s with
           | Some dt => strftime env dt
           | None => s
           end
  end.

(** The map [create_aurora_map] draws from fetch [n_http] and saves as
    map number [n_map]. *)
Definition map_event (env : Env) (loc : Location) (n_http n_map : nat) : Event :=
  let r := fetch_result env n_http in
  let kp := match fst r with None => 0 | Some k => k end in
  let ts := match fst r with None => Some "Unknown" | Some _ => snd r end in
  let v := calculate_aurora_visibility loc kp in
  EMap kp (verdict_boundary v) (verdict_visible v) (formatted env ts)
       (save_map env n_map).

(** The first two conjuncts of [should_alert]. *)
Definition threshold_met (s : AuroraSystem) (kp_index : Q) : bool :=
  Qge_bool kp_index (inject_Z (kp_threshold s))
  && verdict_visible (calculate_aurora_visibility (user_location s) kp_index).

(** The third conjunct of [should_alert], read at clock reading [now]. *)
Definition cooldown_passed (s : AuroraSystem) (now : Q) : bool :=
  match last_alert_time s with
  | None => true
  | Some last => Qgt_bool (now - last) (inject_Z (alert_cooldown s))
  end.

(** The spec's suppression rule, in its words: suppress when
    [last_alert_at] is set and [now - last_alert_at < cooldown_seconds]. *)
Definition spec_should_suppress (s : AuroraSystem) (now : Q) : bool :=
  match last_alert_time s with
  | None => false
  | Some last => Qgt_bool (inject_Z (alert_cooldown s)) (now - last)
  end.

(** How many clock readings the cooldown test takes. *)
Definition cooldown_reads (s : AuroraSystem) : nat :=
  match last_alert_time s with None => 0 | Some _ => 1 end.

Definition with_last_alert_time (s : AuroraSystem) (t : Q) : AuroraSystem :=
  {| user_location := user_location s;
     kp_threshold := kp_threshold s;
     last_alert_time := Some t;
     alert_cooldown := alert_cooldown s;
     email_config := email_config s |}.



Definition saved_or_raised {A} (env : Env) (n_map : nat) (a : A) : Exc A :=
  match save_map env n_map with
  | Some _ => Returned a
  | None => Raised "map"
  end.

(** The mail events of an alert cycle: one session when the map was
    saved and mail is configured, none otherwise. *)
Definition alert_mail_events (env : Env) (w : World) (kp_index : Q) : list Event :=
  match save_map env (map_calls w), email_config (obj w) with
  | Some map_file, Some _ =>
      [ESmtp AlertMail
             ("Aurora Alert! Kp=" ++ format_1f kp_index
                ++ " - Visible from your location!")
             (Some map_file) (smtp_session env (smtp_calls w))]
  | _, _ => []
  end.

(** The world a cycle leaves when it takes the alert branch with
    reading [kp_index]. *)
Definition world_after_alert (env : Env) (w : World) (kp_index : Q) : World :=
  let s := obj w in
  let now_at := (clock_calls w + cooldown_reads s)%nat in
  {| obj := with_last_alert_time s (time_time env now_at);
     http_calls := S (S (http_calls w));
     clock_calls := S now_at;
     map_calls := S (map_calls w);
     smtp_calls := (smtp_calls w + List.length (alert_mail_events env w kp_index))%nat;
     trace :=
       (trace w
          ++ [EConsoleAlert kp_index
                (verdict_status
                   (calculate_aurora_visibility (user_location s) kp_index));
              map_event env (user_location s) (S (http_calls w)) (map_calls w)]
          ++ alert_mail_events env w kp_index)%list |}.

(** The world a cycle leaves when it takes the other branch. *)
Definition world_after_report (env : Env) (w : World) (kp_index : Q) : World :=
  let s := obj w in
  {| obj := s;
     http_calls := S (S (http_calls w));
     clock_calls :=
       (clock_calls w + if threshold_met s kp_index then cooldown_reads s else 0)%nat;
     map_calls := S (map_calls w);
     smtp_calls := smtp_calls w;
     trace :=
       (trace w
          ++ [map_event env (user_location s) (S (http_calls w)) (map_calls w)])%list |}.

(** Whether the cycle started in [w] takes the alert branch. *)
Definition alert_branch (env : Env) (w : World) : bool :=
  match fst (fetch_result env (http_calls w)) with
  | Some kp_index =>
      threshold_met (obj w) kp_index
      && cooldown_passed (obj w) (time_time env (clock_calls w))
  | None => false
  end.


Definition is_console_alert (e : Event) : bool :=
  match e with EConsoleAlert _ _ => true | _ => false end.

Definition is_mail (e : Event) : bool :=
  match e with ESmtp _ _ _ _ => true | _ => false end.





(* ================================================================== *)
(** ** What [create_aurora_map] draws *)

(** How many elements [range(start, stop, step)] has, for a step other
    than 0. *)
Definition range_len (start stop step : Z) : nat :=
  if (0 <? step)%Z then
    if (start <? stop)%Z
    then Z.to_nat ((stop - start + step - 1) / step)
    else 0%nat
  else
    if (stop <? start)%Z
    then Z.to_nat ((start - stop - step - 1) / (- step))
    else 0%nat.

(** [range(start, stop, step)]. *)
Definition py_range (start stop step : Z) : list Z :=
  map (fun i => (start + Z.of_nat i * step)%Z)
      (seq 0 (range_len start stop step)).

(** The visibility line: [[visible_latitude, lon]] for every fifth
    degree of longitude. *)
Definition aurora_points (visible_latitude : Z) : list (Z * Z) :=
  map (fun lon => (visible_latitude, lon)) (py_range (-180) 181 5).

(** The visibility zone: the south edge at [visible_latitude], then
    the north edge at 90. *)
Definition aurora_zone (visible_latitude : Z) : list (Z * Z) :=
  (map (fun lon => (visible_latitude, lon)) (py_range (-180) 181 10)
   ++ map (fun lon => (90%Z, lon)) (py_range 180 (-181) (-10)))%list.

(** The colour of the observer's marker. *)
Definition user_color (is_visible : bool) : string :=
  if negb is_visible then "red" else "orange".

(** The distance printed in the marker's popup. *)
Definition distance_to_aurora (user_location : Location) (visible_latitude : Z) : Q :=
  Qabs (lat user_location - inject_Z visible_latitude).


(** An environment in which the map cannot be saved. *)
Definition read_only_disk_env (time_tag : string) (kp : Q) (clock : nat -> Q)
           (mail_ok : bool) : Env :=
  {| strptime := strptime_padded;
     strftime := strftime_12h;
     http_get := fun _ =>
       Some {| status_code := 200; json := Some (noaa_body time_tag kp) |};
     time_time := clock;
     save_map := fun _ => None;
     smtp_session := fun _ => mail_ok |}.

(** The integer level of an index: its floor, kept within 0..9. *)
Definition level_of (kp_index : Q) : Z :=
  Z.max 0 (Z.min 9 (Qfloor kp_index)).

(** The fields no method assigns after [__init__]. *)
Definition same_config (s s' : AuroraSystem) : Prop :=
  user_location s' = user_location s
  /\ kp_threshold s' = kp_threshold s
  /\ alert_cooldown s' = alert_cooldown s
  /\ email_config s' = email_config s.

(** Two worlds that differ at most in the mail sessions opened and in
    the events recorded so far. *)
Definition same_but_mail (w w' : World) : Prop :=
  obj w' = obj w
  /\ http_calls w' = http_calls w
  /\ clock_calls w' = clock_calls w
  /\ map_calls w' = map_calls w.

(* ================================================================== *)
(** ** [format_timestamp] with its console *)

(** The methods above are written for a console that takes every line:
    their [print]s are left out.  [format_timestamp] prints inside its
    [except] handler, before it returns, and a [print] raises
    [UnicodeEncodeError] when the console cannot encode the line.  Here
    the method is modelled with that [print].

    A Python string is modelled by its UTF-8 bytes; a lone surrogate,
    which has no UTF-8 form, by the three bytes the [surrogatepass]
    handler gives it (237, then 160..191, then one more). *)
Module Console.

(** - [stdout_accepts line]: [print(line)] goes through.
    - [strptime_error s]: [str(e)] of the [ValueError] that [strptime]
      raises on [s]. *)
Record Stdout : Type := {
  stdout_accepts : string -> bool;
  strptime_error : string -> string
}.

Definition print (c : Stdout) (line : string) : M unit :=
  if stdout_accepts c line then ret tt else raise "UnicodeEncodeError".

Definition datetime_strptime (env : Env) (c : Stdout) (s : string) : M DateTime :=
  match strptime env s with
  | Some dt => ret dt
  | None => raise (strptime_error c s)
  end.

Definition format_timestamp (env : Env) (c : Stdout) (timestamp_str : option string)
  : M string :=
  match timestamp_str with
  | None => ret "Unknown"
  | Some s =>
      if String.eqb s "Unknown" then ret "Unknown"
      else
        try_except
          (dt <- datetime_strptime env c s ;;
           ret (strftime env dt))
          (fun e =>
             print c ("Error formatting timestamp: " ++ e) ;;;
             ret s)
  end.

End Console.

(** Whether the bytes hold a surrogate. *)
Fixpoint has_surrogate (s : string) : bool :=
  match s with
  | EmptyString => false
  | String c rest =>
      match rest with
      | EmptyString => false
      | String c' _ =>
          ((nat_of_ascii c =? 237)%nat && (160 <=? nat_of_ascii c')%nat)
          || has_surrogate rest
      end
  end.

(** A UTF-8 console beside the sample parser.  When the first 19
    characters are a date and more follows, the library's message is
    the rest of the input as it is; otherwise it quotes the input with
    [repr], which escapes what a console cannot print (the sample
    leaves the quoted input out). *)
Definition utf8_console : Console.Stdout :=
  {| Console.stdout_accepts := fun line => negb (has_surrogate line);
     Console.strptime_error := fun s =>
       match strptime_padded (substring 0 19 s) with
       | Some _ =>
           "unconverted data remains: " ++ substring 19 (String.length s - 19) s
       | None => "time data does not match format '%Y-%m-%d %H:%M:%S'"
       end |}.

(** A date followed by the lone surrogate U+D800, as JSON
    ["2024-01-15 12:00:00\ud800"] decodes. *)
Definition surrogate_time_tag : string :=
  "2024-01-15 12:00:00"
    ++ String (ascii_of_nat 237) (String (ascii_of_nat 160)
                                    (String (ascii_of_nat 128) EmptyString)).

(* ================================================================== *)
(** * Comparisons of floats *)

Lemma Qge_bool_iff a b : Qge_bool a b = true <-> b <= a.
Proof. unfold Qge_bool. apply Qle_bool_iff. Qed.

Lemma Qge_bool_false a b : Qge_bool a b = false <-> a < b.
Proof.
  unfold Qge_bool. split; intro H.
  - destruct (Qlt_le_dec a b) as [Hlt|Hle]; [exact Hlt|].
    apply Qle_bool_iff in Hle. congruence.
  - destruct (Qle_bool b a) eqn:E; [|reflexivity].
    apply Qle_bool_iff in E. lra.
Qed.

Lemma Qgt_bool_iff a b : Qgt_bool a b = true <-> b < a.
Proof.
  unfold Qgt_bool. rewrite negb_true_iff.
  apply (Qge_bool_false b a).
Qed.

Lemma Qgt_bool_false a b : Qgt_bool a b = false <-> a <= b.
Proof.
  unfold Qgt_bool. rewrite negb_false_iff. apply Qle_bool_iff.
Qed.

(* ================================================================== *)
(** * Properties of the visibility model *)

Section VisibilityModel.

(** The levels in the order the loop visits them. *)
Lemma levels_descending :
  sorted_reverse (keys visibility_map) = [9; 8; 7; 6; 5; 4; 3; 2; 1; 0]%Z.
Proof. reflexivity. Qed.


Lemma verdict_boundary_eq loc kp :
  verdict_boundary (calculate_aurora_visibility loc kp) = boundary_latitude kp.
Proof. reflexivity. Qed.

Lemma verdict_visible_eq loc kp :
  verdict_visible (calculate_aurora_visibility loc kp)
  = Qge_bool (lat loc) (inject_Z (boundary_latitude kp)).
Proof. reflexivity. Qed.



Lemma levels_are_descending :
  descending (sorted_reverse (keys visibility_map)).
Proof.
  rewrite levels_descending.
  repeat (constructor; [simpl; intros y Hy; intuition lia|]).
  constructor.
Qed.

(** The loop, read as a search: either it stops at the first level
    [L] with [L <= kp_index], every level before it being above
    [kp_index], or no level matches and the initial value stays. *)
Lemma scan_levels_first_match kp levels d :
  (exists pre L post,
      levels = (pre ++ L :: post)%list
      /\ (forall x, In x pre -> kp < inject_Z x)
      /\ inject_Z L <= kp
      /\ scan_levels kp levels d
         = match dict_get L visibility_map with Some v => v | None => d end)
  \/ ((forall x, In x levels -> kp < inject_Z x)
      /\ scan_levels kp levels d = d).
Proof.
  induction levels as [|l rest IH]; simpl.
  - right. split; [intros x []|reflexivity].
  - destruct (Qge_bool kp (inject_Z l)) eqn:E.
    + left. exists [], l, rest. simpl.
      apply Qge_bool_iff in E.
      repeat split; auto. intros x [].
    + apply Qge_bool_false in E.
      destruct IH as [(pre & L & post & -> & Hpre & HL & Hs)|[Hall Hs]].
      * left. exists (l :: pre), L, post. simpl.
        repeat split; auto.
        intros x [<-|Hx]; auto.
      * right. split; auto.
        intros x [<-|Hx]; auto.
Qed.

Lemma descending_split pre L post :
  descending (pre ++ L :: post)%list -> forall y, In y post -> (y < L)%Z.
Proof.
  induction pre as [|p pre IH]; simpl; intros H y Hy.
  - inversion H; subst. auto.
  - inversion H; subst. eauto.
Qed.

Lemma in_sorted_reverse x xs : In x (sorted_reverse xs) <-> In x xs.
Proof.
  assert (Hins : forall a l, In x (insert_desc a l) <-> a = x \/ In x l).
  { intros a l. induction l as [|y ys IH]; simpl.
    - tauto.
    - destruct (y <=? a)%Z; simpl; tauto. }
  induction xs as [|a xs IH]; simpl; [tauto|].
  rewrite Hins, IH. tauto.
Qed.

Lemma inject_Z_le a b : inject_Z a <= inject_Z b <-> (a <= b)%Z.
Proof. unfold Qle; simpl. lia. Qed.

Lemma inject_Z_lt a b : inject_Z a < inject_Z b <-> (a < b)%Z.
Proof. unfold Qlt; simpl. lia. Qed.

(** For a non-negative index the loop returns the entry of the
    largest level at most the index. *)
Lemma boundary_of_largest_level kp :
  0 <= kp ->
  exists L, largest_level_le kp L
            /\ dict_get L visibility_map = Some (boundary_latitude kp).
Proof.
  intro Hkp. unfold boundary_latitude.
  destruct (scan_levels_first_match kp (sorted_reverse (keys visibility_map)) 80%Z)
    as [(pre & L & post & Heq & Hpre & HL & Hs)|[Hall _]].
  - exists L.
    assert (HinL : In L (keys visibility_map)).
    { apply in_sorted_reverse. rewrite Heq. apply in_or_app. right. left. reflexivity. }
    assert (Hsome : exists v, dict_get L visibility_map = Some v).
    { simpl in HinL.
      repeat (destruct HinL as [<-|HinL]; [eexists; reflexivity|]).
      destruct HinL. }
    destruct Hsome as [v Hv]. rewrite Hv in Hs.
    split; [|rewrite Hs; exact Hv].
    split; [exact HinL|]. split; [exact HL|].
    intros L' HL' Hle.
    apply in_sorted_reverse in HL'. rewrite Heq in HL'.
    apply in_app_or in HL'. destruct HL' as [Hin|[<-|Hin]].
    + apply Hpre in Hin. lra.
    + lia.
    + pose proof levels_are_descending as Hd. rewrite Heq in Hd.
      pose proof (descending_split _ _ _ Hd _ Hin). lia.
  - exfalso.
    assert (H0 : In 0%Z (sorted_reverse (keys visibility_map))).
    { rewrite levels_descending. simpl. tauto. }
    apply Hall in H0. change (inject_Z 0) with 0 in H0. lra.
Qed.

(** Below every level the initial value 80 stays. *)
Lemma boundary_of_negative kp : kp < 0 -> boundary_latitude kp = 80%Z.
Proof.
  intro Hkp. unfold boundary_latitude.
  destruct (scan_levels_first_match kp (sorted_reverse (keys visibility_map)) 80%Z)
    as [(pre & L & post & Heq & Hpre & HL & Hs)|[_ Hs]]; [|exact Hs].
  exfalso.
  assert (HinL : In L (sorted_reverse (keys visibility_map))).
  { rewrite Heq. apply in_or_app. right. left. reflexivity. }
  rewrite levels_descending in HinL. simpl in HinL.
  assert (0 <= L)%Z by intuition lia.
  apply inject_Z_le in H. change (inject_Z 0) with 0 in H. lra.
Qed.

(** The loop sees the index only through its comparisons with the
    levels. *)
Lemma scan_levels_ext kp kp' levels d :
  (forall L, In L levels -> (inject_Z L <= kp <-> inject_Z L <= kp')) ->
  scan_levels kp levels d = scan_levels kp' levels d.
Proof.
  induction levels as [|l rest IH]; simpl; intro H; [reflexivity|].
  assert (E : Qge_bool kp (inject_Z l) = Qge_bool kp' (inject_Z l)).
  { apply eq_true_iff_eq. rewrite !Qge_bool_iff. apply H. left. reflexivity. }
  rewrite E. destruct (Qge_bool kp' (inject_Z l)); [reflexivity|].
  apply IH. intros L HL. apply H. right. exact HL.
Qed.

Lemma same_level_same_boundary kp kp' :
  (forall L, In L (keys visibility_map) ->
             (inject_Z L <= kp <-> inject_Z L <= kp')) ->
  boundary_latitude kp = boundary_latitude kp'.
Proof.
  intro H. unfold boundary_latitude. apply scan_levels_ext.
  intros L HL. apply H. apply in_sorted_reverse. exact HL.
Qed.

Lemma boundary_latitude_range kp :
  (35 <= boundary_latitude kp <= 80)%Z.
Proof.
  unfold boundary_latitude.
  destruct (scan_levels_first_match kp (sorted_reverse (keys visibility_map)) 80%Z)
    as [(pre & L & post & Heq & _ & _ & Hs)|[_ Hs]]; rewrite Hs; [|lia].
  assert (HinL : In L (sorted_reverse (keys visibility_map))).
  { rewrite Heq. apply in_or_app. right. left. reflexivity. }
  rewrite levels_descending in HinL. simpl in HinL.
  repeat (destruct HinL as [<-|HinL]; [simpl; lia|]).
  destruct HinL.
Qed.

(** The table read at one of its own levels. *)
Lemma boundary_at_level L b :
  dict_get L visibility_map = Some b ->
  (0 <= L <= 9)%Z /\ boundary_latitude (inject_Z L) = b.
Proof.
  unfold visibility_map. simpl. intro H.
  repeat match type of H with
         | (if (?a =? ?k)%Z then _ else _) = _ =>
             destruct (Z.eqb_spec a k) as [->|_];
             [injection H; intros <-; split; [lia|reflexivity]|]
         end.
  discriminate H.
Qed.

Lemma level_is_tabulated L :
  (0 <= L <= 9)%Z -> exists b, dict_get L visibility_map = Some b.
Proof.
  intro H.
  assert (HL : (L = 0 \/ L = 1 \/ L = 2 \/ L = 3 \/ L = 4 \/ L = 5
                \/ L = 6 \/ L = 7 \/ L = 8 \/ L = 9)%Z) by lia.
  repeat (destruct HL as [->|HL]; [eexists; reflexivity|]).
  subst L. eexists; reflexivity.
Qed.

(** The loop at work on the table: the levels are visited from 9 down
    to 0 and the first one not above the index gives the boundary. *)
Lemma boundary_first_match kp :
  (exists pre L post,
      sorted_reverse (keys visibility_map) = (pre ++ L :: post)%list
      /\ (forall x, In x pre -> kp < inject_Z x)
      /\ inject_Z L <= kp
      /\ dict_get L visibility_map = Some (boundary_latitude kp))
  \/ ((forall x, In x (sorted_reverse (keys visibility_map)) -> kp < inject_Z x)
      /\ boundary_latitude kp = 80%Z).
Proof.
  unfold boundary_latitude.
  destruct (scan_levels_first_match kp (sorted_reverse (keys visibility_map)) 80%Z)
    as [(pre & L & post & Heq & Hpre & HL & Hs)|[Hall Hs]].
  - left. exists pre, L, post.
    repeat (split; [assumption|]).
    assert (HinL : In L (sorted_reverse (keys visibility_map))).
    { rewrite Heq. apply in_or_app. right. left. reflexivity. }
    rewrite Hs. clear Hs Heq.
    rewrite levels_descending in HinL. simpl in HinL.
    repeat (destruct HinL as [<-|HinL]; [reflexivity|]).
    destruct HinL.
  - right. split; assumption.
Qed.

(** C1 (amended). The boundary latitude is a step function of the
    index: for an index of at least 0 it is the table entry of the
    largest level not above the index, and 80 for a negative index; two
    indices that compare alike with every level get the same boundary
    and the same visibility, so 4.9 and 4.0 agree on both (both see 60),
    and at index -1 and latitude 90 the boundary is 80.  The status text
    carries the index printed to one decimal.  The levels are scanned
    from 9 down to 0 and the first one not above the index wins. *)
Theorem visibility_is_step_function :
  forall (loc : Location) (kp : Q),
    let v := calculate_aurora_visibility loc kp in
    (0 <= kp ->
     exists L, largest_level_le kp L
               /\ dict_get L visibility_map = Some (verdict_boundary v))
    /\ (kp < 0 -> verdict_boundary v = 80%Z)
    /\ (forall kp',
           (forall L, In L (keys visibility_map) ->
                      (inject_Z L <= kp <-> inject_Z L <= kp')) ->
           verdict_visible (calculate_aurora_visibility loc kp') = verdict_visible v
           /\ verdict_boundary (calculate_aurora_visibility loc kp') = verdict_boundary v)
    /\ (verdict_visible (calculate_aurora_visibility loc (49 # 10))
        = verdict_visible (calculate_aurora_visibility loc 4)
        /\ verdict_boundary (calculate_aurora_visibility loc (49 # 10)) = 60%Z
        /\ verdict_boundary (calculate_aurora_visibility loc 4) = 60%Z)
    /\ verdict_boundary
         (calculate_aurora_visibility {| lat := 90; lon := lon loc |} (-1)) = 80%Z
    /\ verdict_status v
       = "Kp=" ++ format_1f kp ++ ", Visible south to "
               ++ string_of_Z (verdict_boundary v) ++ degree_N
    /\ sorted_reverse (keys visibility_map) = [9; 8; 7; 6; 5; 4; 3; 2; 1; 0]%Z
    /\ ((exists pre L post,
            sorted_reverse (keys visibility_map) = (pre ++ L :: post)%list
            /\ (forall x, In x pre -> kp < inject_Z x)
            /\ inject_Z L <= kp
            /\ dict_get L visibility_map = Some (verdict_boundary v))
        \/ ((forall x, In x (sorted_reverse (keys visibility_map)) ->
                       kp < inject_Z x)
            /\ verdict_boundary v = 80%Z)).
Proof.
  intros loc kp v. subst v.
  rewrite !verdict_boundary_eq, !verdict_visible_eq.
  split; [apply boundary_of_largest_level|].
  split; [apply boundary_of_negative|].
  split.
  { intros kp' H. rewrite (same_level_same_boundary H). split; reflexivity. }
  split; [repeat split|].
  split; [reflexivity|].
  split; [reflexivity|].
  split; [reflexivity|].
  apply boundary_first_match.
Qed.

(** The step function at work on the index 4.9. *)
Lemma visibility_is_step_function_witness :
  0 <= 49 # 10
  /\ exists L, largest_level_le (49 # 10) L
               /\ dict_get L visibility_map = Some 60%Z.
Proof.
  split; [unfold Qle; simpl; lia|].
  destruct (visibility_is_step_function peoria (49 # 10)) as [H _].
  apply H. unfold Qle; simpl; lia.
Defined.

(** C1 (as stated) fails: the verdicts at 4.9 and at 4.0 differ in their
    status text, both for the decimal 4.9 and for the double written
    4.9. *)
Lemma verdict_at_4_9_differs_from_4_0 :
  calculate_aurora_visibility peoria (49 # 10)
    <> calculate_aurora_visibility peoria 4
  /\ calculate_aurora_visibility peoria (2758454771764429 # 562949953421312)
    <> calculate_aurora_visibility peoria 4.
Proof.
  split; vm_compute; intro H; discriminate H.
Qed.

(** C4. Visibility is inclusive at the boundary: the observer sees the
    aurora exactly when the latitude is at least the boundary; at each
    tabulated level the boundary itself is visible and anything below
    it, 0.01 below in particular, is not. *)
Theorem visibility_inclusive_at_boundary :
  (forall (loc : Location) (kp : Q),
      verdict_visible (calculate_aurora_visibility loc kp) = true
      <-> inject_Z (verdict_boundary (calculate_aurora_visibility loc kp)) <= lat loc)
  /\ (forall L : Z, (0 <= L <= 9)%Z -> exists b, dict_get L visibility_map = Some b)
  /\ (forall (L b : Z) (lon0 : Q),
         dict_get L visibility_map = Some b ->
         let at_lat x :=
           calculate_aurora_visibility {| lat := x; lon := lon0 |} (inject_Z L) in
         verdict_boundary (at_lat (inject_Z b)) = b
         /\ verdict_visible (at_lat (inject_Z b)) = true
         /\ verdict_visible (at_lat (inject_Z b - (1 # 100))) = false
         /\ forall eps, 0 < eps ->
                        verdict_visible (at_lat (inject_Z b - eps)) = false).
Proof.
  split; [|split].
  - intros loc kp. rewrite verdict_visible_eq, verdict_boundary_eq.
    apply Qge_bool_iff.
  - apply level_is_tabulated.
  - intros L b lon0 H at_lat. subst at_lat.
    destruct (boundary_at_level L H) as [_ Hb].
    rewrite !verdict_boundary_eq, !verdict_visible_eq, Hb. simpl lat.
    split; [reflexivity|].
    split; [apply Qge_bool_iff; apply Qle_refl|].
    split; [apply Qge_bool_false; lra|].
    intros eps Heps. rewrite verdict_visible_eq, Hb. simpl lat.
    apply Qge_bool_false. lra.
Qed.

(** Level 4, whose boundary is 60. *)
Lemma visibility_inclusive_at_boundary_witness :
  dict_get 4%Z visibility_map = Some 60%Z
  /\ verdict_visible
       (calculate_aurora_visibility {| lat := 60; lon := 0 |} 4) = true
  /\ verdict_visible
       (calculate_aurora_visibility {| lat := 60 - (1 # 100); lon := 0 |} 4) = false.
Proof.
  destruct visibility_inclusive_at_boundary as [_ [_ H]].
  destruct (H 4%Z 60%Z 0 eq_refl) as [_ [H1 [H2 _]]].
  split; [reflexivity|]. split; [exact H1|exact H2].
Defined.

(** C7 (amended). Construction takes any latitude and stores it as it
    is, without a check and without clamping; the visibility model has
    no precondition on it: a latitude above 90 is reported visible at
    every index, one below -90 is reported not visible at every
    index. *)
Theorem latitude_is_not_validated :
  forall (loc : Location) (cfg : option EmailConfig),
    construct loc cfg = Returned (init loc cfg)
    /\ user_location (init loc cfg) = loc
    /\ (forall kp,
           verdict_visible (calculate_aurora_visibility loc kp)
           = Qge_bool (lat loc) (inject_Z (boundary_latitude kp)))
    /\ (90 < lat loc ->
        forall kp, verdict_visible (calculate_aurora_visibility loc kp) = true)
    /\ (lat loc < -90 ->
        forall kp, verdict_visible (calculate_aurora_visibility loc kp) = false).
Proof.
  intros loc cfg.
  split; [reflexivity|]. split; [reflexivity|]. split; [reflexivity|].
  split; intros Hlat kp; rewrite verdict_visible_eq;
    pose proof (boundary_latitude_range kp) as [Hlo Hhi];
    apply inject_Z_le in Hlo; apply inject_Z_le in Hhi;
    change (inject_Z 35) with 35 in Hlo; change (inject_Z 80) with 80 in Hhi.
  - apply Qge_bool_iff. lra.
  - apply Qge_bool_false. lra.
Qed.

(** A latitude of 100 degrees. *)
Lemma latitude_is_not_validated_witness :
  90 < 100
  /\ verdict_visible
       (calculate_aurora_visibility {| lat := 100; lon := 0 |} 0) = true.
Proof.
  split; [unfold Qlt; simpl; lia|].
  destruct (latitude_is_not_validated {| lat := 100; lon := 0 |} None)
    as [_ [_ [_ [H _]]]].
  apply H. unfold Qlt; simpl; lia.
Defined.

(** C7 (as stated) fails: a latitude of 100 is outside [-90, 90], yet
    the constructor returns an object holding it and the visibility
    model answers for it. *)
Lemma latitude_100_is_accepted :
  ~ (-90 <= 100 /\ 100 <= 90)
  /\ construct {| lat := 100; lon := 0 |} None
     = Returned (init {| lat := 100; lon := 0 |} None)
  /\ lat (user_location (init {| lat := 100; lon := 0 |} None)) = 100
  /\ calculate_aurora_visibility
       (user_location (init {| lat := 100; lon := 0 |} None)) 0
     = (true, "Kp=0.0, Visible south to 80" ++ degree_N, 80%Z).
Proof.
  split.
  - intros [_ H]. revert H. unfold Qle; simpl; lia.
  - repeat split.
Qed.

End VisibilityModel.

(* ================================================================== *)
(** * Running the methods *)

Lemma bind_returned {A B} (m : M A) (k : A -> M B) w a w' :
  m w = (Returned a, w') -> bind m k w = k a w'.
Proof. intro H. unfold bind. rewrite H. reflexivity. Qed.
Arguments bind_returned {A B m} k {w a w'} _.

Lemma bind_raised {A B} (m : M A) (k : A -> M B) w e w' :
  m w = (Raised e, w') -> bind m k w = (Raised e, w').
Proof. intro H. unfold bind. rewrite H. reflexivity. Qed.
Arguments bind_raised {A B m} k {w e w'} _.

Section Runs.

Variable env : Env.

(** [get_kp_index] always returns, and only the count of fetches
    moves. *)
Lemma get_kp_index_run w :
  get_kp_index env w = (Returned (fetch_result env (http_calls w)), tick_http w).
Proof.
  unfold get_kp_index, try_except, bind, requests_get, fetch_result.
  destruct (http_get env (http_calls w)) as [response|]; [|reflexivity].
  destruct (status_code response =? 200)%Z; [|reflexivity].
  unfold response_json.
  destruct (json response) as [data|]; [|reflexivity].
  unfold ret.
  destruct (1 <? List.length data)%nat; [|reflexivity].
  destruct (last_entry data) as [latest_entry|]; [|reflexivity].
  unfold float_of.
  destruct (kp_field latest_entry); reflexivity.
Qed.

(** Written without its [print], [format_timestamp] always returns and
    touches nothing. *)
Lemma format_timestamp_run ts w :
  format_timestamp env ts w = (Returned (formatted env ts), w).
Proof.
  unfold format_timestamp, formatted.
  destruct ts as [s|]; [|reflexivity].
  destruct (String.eqb s "Unknown"); [reflexivity|].
  unfold try_except, bind, datetime_strptime.
  destruct (strptime env s); reflexivity.
Qed.

Lemma create_aurora_map_run w :
  create_aurora_map env w
  = (match save_map env (map_calls w) with
     | Some map_file => Returned map_file
     | None => Raised "map"
     end,
     tick_map (map_event env (user_location (obj w)) (http_calls w) (map_calls w))
              (tick_http w)).
Proof.
  unfold create_aurora_map.
  rewrite (bind_returned _ (get_kp_index_run w)).
  unfold map_event.
  destruct (fetch_result env (http_calls w)) as [[k|] ts]; simpl fst; simpl snd;
    rewrite (bind_returned _ (format_timestamp_run _ _));
    unfold bind, get_self, folium_save, ret; simpl;
    destruct (save_map env (map_calls w)); reflexivity.
Qed.

Lemma cooldown_over_run s w :
  cooldown_over env s w
  = (Returned (cooldown_passed s (time_time env (clock_calls w))),
     Nat.iter (cooldown_reads s) tick_clock w).
Proof.
  unfold cooldown_over, cooldown_passed, cooldown_reads.
  destruct (last_alert_time s); reflexivity.
Qed.

End Runs.

Section Cycles.

Variable env : Env.


Lemma send_email_alert_configured kp info map_file w cfg :
  email_config (obj w) = Some cfg ->
  send_email_alert env kp info map_file w
  = (Returned (smtp_session env (smtp_calls w)),
     tick_smtp (ESmtp AlertMail
                      ("Aurora Alert! Kp=" ++ format_1f kp
                         ++ " - Visible from your location!")
                      (Some map_file) (smtp_session env (smtp_calls w))) w).
Proof.
  intro H. unfold send_email_alert, bind, get_self. rewrite H.
  unfold try_except, smtp_send.
  destruct (smtp_session env (smtp_calls w)); reflexivity.
Qed.

Lemma check_no_data w :
  fst (fetch_result env (http_calls w)) = None ->
  check_aurora_conditions env w = (Returned NoData, tick_http w).
Proof.
  intro H. unfold check_aurora_conditions.
  rewrite (bind_returned _ (get_kp_index_run env w)).
  destruct (fetch_result env (http_calls w)) as [[k|] ts]; [discriminate H|].
  reflexivity.
Qed.

Lemma check_report_branch w kp ts :
  fetch_result env (http_calls w) = (Some kp, ts) ->
  threshold_met (obj w) kp
    && cooldown_passed (obj w) (time_time env (clock_calls w)) = false ->
  check_aurora_conditions env w
  = (saved_or_raised env (map_calls w)
       (if threshold_met (obj w) kp then Suppressed else ReportOnly),
     world_after_report env w kp).
Proof.
  intros Hf Hb. unfold check_aurora_conditions.
  rewrite (bind_returned _ (get_kp_index_run env w)). rewrite Hf.
  rewrite (bind_returned _ (format_timestamp_run env ts _)).
  unfold get_self at 1. unfold bind at 1.
  change (obj (tick_http w)) with (obj w).
  unfold world_after_report, threshold_met in *.
  destruct (calculate_aurora_visibility (user_location (obj w)) kp)
    as [[vis info] b] eqn:Ev.
  cbn [verdict_visible verdict_status fst snd] in *.
  destruct (Qge_bool kp (inject_Z (kp_threshold (obj w))) && vis).
  - simpl in Hb.
    rewrite (bind_returned _ (cooldown_over_run env _ _)).
    change (clock_calls (tick_http w)) with (clock_calls w). rewrite Hb.
    unfold bind. rewrite create_aurora_map_run. unfold saved_or_raised. simpl.
    unfold cooldown_reads.
    destruct (last_alert_time (obj w)); simpl;
      destruct (save_map env (map_calls w));
      simpl; rewrite ?Nat.add_0_r, ?Nat.add_1_r; reflexivity.
  - unfold bind, ret. rewrite create_aurora_map_run. unfold saved_or_raised. simpl.
    rewrite Nat.add_0_r.
    destruct (save_map env (map_calls w)); reflexivity.
Qed.

Lemma check_alert_branch w kp ts :
  fetch_result env (http_calls w) = (Some kp, ts) ->
  threshold_met (obj w) kp = true ->
  cooldown_passed (obj w) (time_time env (clock_calls w)) = true ->
  check_aurora_conditions env w
  = (saved_or_raised env (map_calls w) Alert, world_after_alert env w kp).
Proof.
  intros Hf Hm Hc. unfold check_aurora_conditions.
  rewrite (bind_returned _ (get_kp_index_run env w)). rewrite Hf.
  rewrite (bind_returned _ (format_timestamp_run env ts _)).
  unfold get_self at 1. unfold bind at 1.
  change (obj (tick_http w)) with (obj w).
  unfold world_after_alert, alert_mail_events, with_last_alert_time, threshold_met in *.
  destruct (calculate_aurora_visibility (user_location (obj w)) kp)
    as [[vis info] b] eqn:Ev.
  cbn [verdict_visible verdict_status fst snd] in *.
  rewrite Hm.
  rewrite (bind_returned _ (cooldown_over_run env _ _)).
  change (clock_calls (tick_http w)) with (clock_calls w). rewrite Hc.
  unfold bind, notify_aurora_console, emit, time_now, set_last_alert_time.
  rewrite create_aurora_map_run. unfold saved_or_raised. simpl.
  unfold cooldown_reads.
  destruct (last_alert_time (obj w)) as [last|] eqn:El; simpl;
    destruct (save_map env (map_calls w)) as [map_file|] eqn:Es;
    destruct (email_config (obj w)) as [cfg|] eqn:Ec;
    simpl; rewrite ?Nat.add_0_r, ?Nat.add_1_r;
    try (erewrite send_email_alert_configured by reflexivity);
    unfold ret, tick_smtp, tick_map, tick_http, tick_clock; simpl;
    rewrite <- ?app_assoc; simpl; rewrite ?Nat.add_1_r; reflexivity.
Qed.

End Cycles.

(* ================================================================== *)
(** * The alert state and the decision engine *)

Section Engine.

Variable env : Env.

(** C2 (amended). The cooldown test lets an alert through exactly when
    no alert was recorded yet or strictly more than [alert_cooldown]
    seconds have passed since the last one; so an alert is suppressed
    exactly when [last_alert_time] is set and
    [now - last_alert_time <= alert_cooldown].  The first alert is never
    suppressed; with a cooldown of 3600 and an alert recorded at [t], a
    test at [t + 1] suppresses and one at [t + 3601] does not. *)
Theorem cooldown_suppression_rule :
  forall (s : AuroraSystem) (w : World),
    let now := time_time env (clock_calls w) in
    exists passed : bool,
      fst (cooldown_over env s w) = Returned passed
      /\ (passed = false <->
          exists last, last_alert_time s = Some last
                       /\ now - last <= inject_Z (alert_cooldown s))
      /\ (last_alert_time s = None -> passed = true)
      /\ (forall t, alert_cooldown s = 3600%Z ->
                    last_alert_time s = Some t ->
                    (now == t + 1 -> passed = false)
                    /\ (now == t + 3601 -> passed = true)).
Proof.
  intros s w now. rewrite cooldown_over_run. simpl fst.
  exists (cooldown_passed s now). split; [reflexivity|].
  unfold cooldown_passed.
  destruct (last_alert_time s) as [last|].
  - split; [|split].
    + rewrite Qgt_bool_false. split.
      * intro H. exists last. split; [reflexivity|exact H].
      * intros (l & Hl & H). injection Hl as <-. exact H.
    + discriminate.
    + intros t Hcd Ht. injection Ht as ->. rewrite Hcd.
      change (inject_Z 3600) with 3600.
      split; intro Hnow.
      * apply Qgt_bool_false. lra.
      * apply Qgt_bool_iff. lra.
  - split; [|split].
    + split; [discriminate|]. intros (l & Hl & _). discriminate Hl.
    + reflexivity.
    + intros t _ Ht. discriminate Ht.
Qed.

End Engine.

(** One second after an alert recorded at 1000, cooldown 3600. *)
Lemma cooldown_suppression_rule_witness :
  exists passed : bool,
    fst (cooldown_over (steady_env "" 8 (fun _ => 1001) true)
           (with_last_alert_time (init peoria None) 1000)
           (boot (with_last_alert_time (init peoria None) 1000)))
    = Returned passed
    /\ passed = false.
Proof.
  destruct (cooldown_suppression_rule
              (steady_env "" 8 (fun _ => 1001) true)
              (with_last_alert_time (init peoria None) 1000)
              (boot (with_last_alert_time (init peoria None) 1000)))
    as (passed & Hrun & _ & _ & Hscen).
  exists passed. split; [exact Hrun|].
  destruct (Hscen 1000 eq_refl eq_refl) as [H _].
  apply H. reflexivity.
Defined.

(** C2 (as stated) fails at the edge of the window: exactly 3600
    seconds after an alert recorded at 1000 the code still suppresses
    (the test does not pass, and a cycle with Kp 8 is [Suppressed]),
    while the spec's rule [now - last_alert_at < cooldown_seconds] does
    not. *)
Lemma suppressed_at_exactly_one_cooldown :
  fst (cooldown_over (steady_env "" 8 (fun _ => 4600) true)
         (with_last_alert_time (init peoria None) 1000)
         (boot (with_last_alert_time (init peoria None) 1000)))
  = Returned false
  /\ spec_should_suppress (with_last_alert_time (init peoria None) 1000) 4600
     = false
  /\ fst (check_aurora_conditions
            (steady_env "" 8 (fun _ => 4600) true)
            (boot (with_last_alert_time (init peoria None) 1000)))
     = Returned Suppressed.
Proof. repeat split. Qed.

(** With its [print], [format_timestamp] returns the raw string when
    the console takes the message, and lets the [UnicodeEncodeError]
    out when it does not. *)
Lemma format_timestamp_on_refused_input env c s w :
  strptime env s = None ->
  String.eqb s "Unknown" = false ->
  Console.format_timestamp env c (Some s) w
  = (if Console.stdout_accepts c
          ("Error formatting timestamp: " ++ Console.strptime_error c s)
     then Returned s
     else Raised "UnicodeEncodeError",
     w).
Proof.
  intros Hs Hu. unfold Console.format_timestamp. rewrite Hu.
  unfold try_except, bind, Console.datetime_strptime. rewrite Hs.
  unfold raise, Console.print.
  destruct (Console.stdout_accepts c _); reflexivity.
Qed.

(** On a console that takes every line the method with its [print] is
    the method written without it. *)
Lemma format_timestamp_on_a_console_that_takes_all env c ts w :
  (forall line, Console.stdout_accepts c line = true) ->
  Console.format_timestamp env c ts w = format_timestamp env ts w.
Proof.
  intro Hall. unfold Console.format_timestamp, format_timestamp.
  destruct ts as [s|]; [|reflexivity].
  destruct (String.eqb s "Unknown"); [reflexivity|].
  unfold try_except, bind, Console.datetime_strptime, datetime_strptime.
  destruct (strptime env s); [reflexivity|].
  unfold raise, Console.print. rewrite Hall. reflexivity.
Qed.

(** C9 (the code falls short of the claim). A string the parser
    refuses comes back unchanged only when the console takes the
    handler's message; otherwise the [print] in the handler raises and
    the exception leaves [format_timestamp].  It does so on the time
    tag that ends in a lone surrogate: the parser's message carries the
    surrogate as it is and a UTF-8 console refuses it. *)
Theorem format_timestamp_raises_when_print_fails :
  (forall env c s w,
      strptime env s = None ->
      String.eqb s "Unknown" = false ->
      (Console.stdout_accepts c
         ("Error formatting timestamp: " ++ Console.strptime_error c s) = true ->
       Console.format_timestamp env c (Some s) w = (Returned s, w))
      /\ (Console.stdout_accepts c
            ("Error formatting timestamp: " ++ Console.strptime_error c s) = false ->
          Console.format_timestamp env c (Some s) w
          = (Raised "UnicodeEncodeError", w)))
  /\ strptime (steady_env "" 0 (fun _ => 0) true) surrogate_time_tag = None
  /\ Console.strptime_error utf8_console surrogate_time_tag
     = "unconverted data remains: "
         ++ String (ascii_of_nat 237) (String (ascii_of_nat 160)
                                         (String (ascii_of_nat 128) EmptyString))
  /\ Console.format_timestamp (steady_env "" 0 (fun _ => 0) true) utf8_console
       (Some surrogate_time_tag) (boot (init peoria None))
     = (Raised "UnicodeEncodeError", boot (init peoria None))
  /\ Console.format_timestamp (steady_env "" 0 (fun _ => 0) true) utf8_console
       (Some "2024-01-15 12:00:00.000") (boot (init peoria None))
     = (Returned "2024-01-15 12:00:00.000", boot (init peoria None)).
Proof.
  split.
  - intros env c s w Hs Hu.
    rewrite (format_timestamp_on_refused_input env c s w Hs Hu).
    split; intros ->; reflexivity.
  - repeat split.
Qed.



(** A cycle either takes the alert branch, or leaves the object alone,
    opens no mail session and prints no alert. *)
Lemma check_cases (env : Env) (w : World) :
  (alert_branch env w = true
   /\ exists kp ts,
       fetch_result env (http_calls w) = (Some kp, ts)
       /\ check_aurora_conditions env w
          = (saved_or_raised env (map_calls w) Alert, world_after_alert env w kp))
  \/ (alert_branch env w = false
      /\ obj (snd (check_aurora_conditions env w)) = obj w
      /\ smtp_calls (snd (check_aurora_conditions env w)) = smtp_calls w
      /\ fst (check_aurora_conditions env w) <> Returned Alert
      /\ exists e,
          trace (snd (check_aurora_conditions env w)) = (trace w ++ e)%list
          /\ forallb (fun ev => negb (is_console_alert ev || is_mail ev)) e = true).
Proof.
  unfold alert_branch.
  destruct (fetch_result env (http_calls w)) as [[kp|] ts] eqn:Hf; simpl fst.
  - destruct (threshold_met (obj w) kp
              && cooldown_passed (obj w) (time_time env (clock_calls w))) eqn:Hb.
    + left. split; [reflexivity|]. exists kp, ts. split; [reflexivity|].
      apply andb_true_iff in Hb. destruct Hb as [Hm Hc].
      apply (check_alert_branch env w Hf Hm Hc).
    + right. split; [reflexivity|].
      rewrite (check_report_branch env w Hf Hb). simpl.
      split; [reflexivity|]. split; [reflexivity|].
      split.
      * unfold saved_or_raised.
        destruct (save_map env (map_calls w)); [|discriminate].
        destruct (threshold_met (obj w) kp); discriminate.
      * eexists. split; reflexivity.
  - right. split; [reflexivity|].
    rewrite (check_no_data env w) by (rewrite Hf; reflexivity). simpl.
    split; [reflexivity|]. split; [reflexivity|].
    split; [discriminate|].
    exists []. split; [symmetry; apply app_nil_r|reflexivity].
Qed.






(* ================================================================== *)
(** * The mails *)









(* ================================================================== *)
(** * Cycles at the observer's site *)











(* ================================================================== *)
(** * More on the visibility model *)

Lemma level_le_floor n x : inject_Z n <= x <-> (n <= Qfloor x)%Z.
Proof.
  split; intro H.
  - apply Qfloor_resp_le in H. rewrite Qfloor_Z in H. exact H.
  - apply Qle_trans with (inject_Z (Qfloor x)).
    + apply inject_Z_le. exact H.
    + apply Qfloor_le.
Qed.

Lemma Qge_bool_level x n : Qge_bool x (inject_Z n) = (n <=? Qfloor x)%Z.
Proof.
  apply eq_true_iff_eq. rewrite Qge_bool_iff, Z.leb_le. apply level_le_floor.
Qed.

(** The table in closed form: five degrees less per level. *)
Lemma boundary_latitude_floor kp :
  boundary_latitude kp = (80 - 5 * level_of kp)%Z.
Proof.
  unfold boundary_latitude, level_of. rewrite levels_descending.
  cbn [scan_levels]. rewrite !Qge_bool_level.
  remember (80 - 5 * Z.max 0 (Z.min 9 (Qfloor kp)))%Z as rhs eqn:Hrhs.
  repeat match goal with
         | |- context [(?n <=? Qfloor kp)%Z] =>
             destruct (Z.leb_spec n (Qfloor kp))
         end; simpl; lia.
Qed.

(** X1. The boundary latitude is 80 minus five degrees per level,
    the level being the floor of the index kept within 0..9; so it is
    a multiple of 5 between 35 and 80, and the observer sees the aurora
    exactly when the latitude reaches that value. *)
Theorem boundary_is_80_minus_5_per_level :
  forall (loc : Location) (kp : Q),
    let v := calculate_aurora_visibility loc kp in
    verdict_boundary v = (80 - 5 * Z.max 0 (Z.min 9 (Qfloor kp)))%Z
    /\ (35 <= verdict_boundary v <= 80)%Z
    /\ (verdict_boundary v mod 5 = 0)%Z
    /\ (verdict_visible v = true
        <-> inject_Z (80 - 5 * Z.max 0 (Z.min 9 (Qfloor kp))) <= lat loc).
Proof.
  intros loc kp v. subst v.
  rewrite verdict_boundary_eq, verdict_visible_eq, boundary_latitude_floor.
  unfold level_of.
  split; [reflexivity|].
  split; [lia|].
  split.
  - replace (80 - 5 * Z.max 0 (Z.min 9 (Qfloor kp)))%Z
      with ((16 - Z.max 0 (Z.min 9 (Qfloor kp))) * 5)%Z by lia.
    apply Z_mod_mult.
  - apply Qge_bool_iff.
Qed.

(** Index 7.5 at latitude 45: level 7, boundary 45, visible. *)
Lemma boundary_is_80_minus_5_per_level_witness :
  verdict_boundary (calculate_aurora_visibility {| lat := 45; lon := 0 |} (75 # 10))
  = 45%Z
  /\ verdict_visible (calculate_aurora_visibility {| lat := 45; lon := 0 |} (75 # 10))
     = true.
Proof.
  destruct (boundary_is_80_minus_5_per_level {| lat := 45; lon := 0 |} (75 # 10))
    as (Hb & _ & _ & Hv).
  split; [exact Hb|].
  apply Hv. unfold Qle; simpl; lia.
Defined.

Lemma level_of_monotone kp kp' : kp <= kp' -> (level_of kp <= level_of kp')%Z.
Proof.
  intro H. apply Qfloor_resp_le in H. unfold level_of. lia.
Qed.

(** X2. A higher index never moves the boundary north, and a more
    northern observer never sees less: visibility is monotone in the
    index and in the latitude. *)
Theorem visibility_is_monotone :
  forall (loc loc' : Location) (kp kp' : Q),
    kp <= kp' ->
    lat loc <= lat loc' ->
    (verdict_boundary (calculate_aurora_visibility loc kp')
     <= verdict_boundary (calculate_aurora_visibility loc kp))%Z
    /\ (verdict_visible (calculate_aurora_visibility loc kp) = true ->
        verdict_visible (calculate_aurora_visibility loc' kp') = true).
Proof.
  intros loc loc' kp kp' Hkp Hlat.
  rewrite !verdict_boundary_eq, !verdict_visible_eq, !boundary_latitude_floor.
  pose proof (level_of_monotone Hkp) as Hl.
  split; [lia|].
  rewrite !Qge_bool_iff. intro Hv.
  apply Qle_trans with (inject_Z (80 - 5 * level_of kp)).
  - apply inject_Z_le. lia.
  - apply Qle_trans with (lat loc); assumption.
Qed.

(** Visible at index 5 from latitude 55, hence at index 7.2 from
    latitude 60. *)
Lemma visibility_is_monotone_witness :
  5 <= 72 # 10
  /\ 55 <= 60
  /\ verdict_visible
       (calculate_aurora_visibility {| lat := 60; lon := 0 |} (72 # 10)) = true.
Proof.
  assert (Hkp : 5 <= 72 # 10) by (unfold Qle; simpl; lia).
  assert (Hlat : 55 <= 60) by (unfold Qle; simpl; lia).
  split; [exact Hkp|]. split; [exact Hlat|].
  destruct (@visibility_is_monotone {| lat := 55; lon := 0 |} {| lat := 60; lon := 0 |}
              5 (72 # 10) Hkp Hlat) as [_ H].
  apply H. reflexivity.
Defined.

(** X3. The index from which a latitude sees the aurora: at 80 degrees
    or more every index is visible, below 35 degrees none is, and in
    the five-degree band that starts at the table entry of level L
    (1..9) the aurora is visible exactly when the index is at least
    L. *)
Theorem visible_from_the_level_of_the_band :
  forall (loc : Location) (kp : Q),
    (80 <= lat loc ->
     verdict_visible (calculate_aurora_visibility loc kp) = true)
    /\ (lat loc < 35 ->
        verdict_visible (calculate_aurora_visibility loc kp) = false)
    /\ (forall L b,
           (1 <= L <= 9)%Z ->
           dict_get L visibility_map = Some b ->
           inject_Z b <= lat loc ->
           lat loc < inject_Z (b + 5) ->
           (verdict_visible (calculate_aurora_visibility loc kp) = true
            <-> inject_Z L <= kp)).
Proof.
  intros loc kp. rewrite verdict_visible_eq, boundary_latitude_floor.
  assert (Hrange : (0 <= level_of kp <= 9)%Z) by (unfold level_of; lia).
  split; [|split].
  - intro H. apply Qge_bool_iff.
    apply Qle_trans with 80; [|exact H].
    change 80 with (inject_Z 80). apply inject_Z_le. lia.
  - intro H. apply Qge_bool_false.
    apply Qlt_le_trans with 35; [exact H|].
    change 35 with (inject_Z 35). apply inject_Z_le. lia.
  - intros L b HL Hget Hlo Hhi.
    destruct (boundary_at_level L Hget) as [_ Hb].
    rewrite boundary_latitude_floor in Hb.
    assert (HlL : level_of (inject_Z L) = L).
    { unfold level_of. rewrite Qfloor_Z. lia. }
    rewrite HlL in Hb.
    rewrite level_le_floor, Qge_bool_iff.
    split; intro H.
    + destruct (Z.le_gt_cases L (Qfloor kp)) as [Hle|Hgt]; [exact Hle|].
      exfalso.
      assert (Hb5 : (b + 5 <= 80 - 5 * level_of kp)%Z) by (unfold level_of; lia).
      apply inject_Z_le in Hb5.
      apply (Qlt_irrefl (lat loc)).
      apply Qlt_le_trans with (inject_Z (b + 5)); [exact Hhi|].
      apply Qle_trans with (inject_Z (80 - 5 * level_of kp)); assumption.
    + apply Qle_trans with (inject_Z b); [|exact Hlo].
      apply inject_Z_le. unfold level_of. lia.
Qed.

(** Peoria, at 40.6664 degrees, lies in the band of level 8. *)
Lemma visible_from_the_level_of_the_band_witness :
  dict_get 8%Z visibility_map = Some 40%Z
  /\ (verdict_visible (calculate_aurora_visibility peoria (79 # 10)) = true
      <-> 8 <= 79 # 10).
Proof.
  split; [reflexivity|].
  destruct (visible_from_the_level_of_the_band peoria (79 # 10)) as (_ & _ & H).
  apply (H 8%Z 40%Z).
  - lia.
  - reflexivity.
  - unfold Qle; simpl; lia.
  - unfold Qlt; simpl; lia.
Defined.

(* ================================================================== *)
(** * More on the data source *)

(** X4. [get_kp_index] never raises, makes exactly one request and
    touches nothing else.  It yields an index and its time tag exactly
    when the request succeeded with status 200, the body decoded, it
    has more than one row and the Kp field of the last row converted;
    then they are those of the last row.  In every other case both
    results are [None]. *)
Theorem get_kp_index_never_raises :
  forall (env : Env) (w : World),
  exists r,
    get_kp_index env w = (Returned r, tick_http w)
    /\ (r = (None, None) \/ exists kp ts, r = (Some kp, Some ts))
    /\ (forall kp ts,
           r = (Some kp, Some ts)
           <-> exists response data latest_entry,
               http_get env (http_calls w) = Some response
               /\ status_code response = 200%Z
               /\ json response = Some data
               /\ (1 < List.length data)%nat
               /\ last_entry data = Some latest_entry
               /\ kp_field latest_entry = Some kp
               /\ time_tag latest_entry = ts).
Proof.
  intros env w. exists (fetch_result env (http_calls w)).
  split; [apply get_kp_index_run|].
  unfold fetch_result.
  destruct (http_get env (http_calls w)) as [response|].
  2:{ split; [left; reflexivity|]. intros kp ts. split; [discriminate|].
      intros (r' & d' & e' & H & _). discriminate H. }
  destruct (Z.eqb_spec (status_code response) 200) as [Hs|Hs].
  2:{ split; [left; reflexivity|]. intros kp ts. split; [discriminate|].
      intros (r' & d' & e' & H & Hs' & _). injection H as <-. contradiction. }
  destruct (json response) as [data|] eqn:Hj.
  2:{ split; [left; reflexivity|]. intros kp ts. split; [discriminate|].
      intros (r' & d' & e' & H & _ & Hj' & _). injection H as <-.
      rewrite Hj in Hj'. discriminate Hj'. }
  destruct (Nat.ltb_spec 1 (List.length data)) as [Hl|Hl].
  2:{ split; [left; reflexivity|]. intros kp ts. split; [discriminate|].
      intros (r' & d' & e' & H & _ & Hj' & Hl' & _). injection H as <-.
      rewrite Hj in Hj'. injection Hj' as <-. lia. }
  destruct (last_entry data) as [latest_entry|] eqn:He.
  2:{ split; [left; reflexivity|]. intros kp ts. split; [discriminate|].
      intros (r' & d' & e' & H & _ & Hj' & _ & He' & _). injection H as <-.
      rewrite Hj in Hj'. injection Hj' as <-. rewrite He in He'. discriminate He'. }
  destruct (kp_field latest_entry) as [kp_value|] eqn:Hk.
  - split; [right; eexists; eexists; reflexivity|].
    intros kp ts. split.
    + intro H. injection H as <- <-.
      exists response, data, latest_entry. repeat split; assumption.
    + intros (r' & d' & e' & H & _ & Hj' & _ & He' & Hk' & Ht').
      injection H as <-. rewrite Hj in Hj'. injection Hj' as <-.
      rewrite He in He'. injection He' as <-.
      rewrite Hk in Hk'. injection Hk' as <-. subst ts. reflexivity.
  - split; [left; reflexivity|]. intros kp ts. split; [discriminate|].
    intros (r' & d' & e' & H & _ & Hj' & _ & He' & Hk' & _).
    injection H as <-. rewrite Hj in Hj'. injection Hj' as <-.
    rewrite He in He'. injection He' as <-.
    rewrite Hk in Hk'. discriminate Hk'.
Qed.

(** A body of a header and one reading of 2.33. *)
Lemma get_kp_index_never_raises_witness :
  get_kp_index (steady_env "2024-01-15 12:00:00.000" (233 # 100) (fun _ => 0) true)
               (boot (init peoria None))
  = (Returned (Some (233 # 100), Some "2024-01-15 12:00:00.000"),
     tick_http (boot (init peoria None))).
Proof.
  destruct (get_kp_index_never_raises
              (steady_env "2024-01-15 12:00:00.000" (233 # 100) (fun _ => 0) true)
              (boot (init peoria None)))
    as (r & Hrun & _ & Hiff).
  rewrite Hrun. f_equal. f_equal.
  apply Hiff.
  eexists. eexists. eexists.
  split; [reflexivity|].
  split; [reflexivity|].
  split; [reflexivity|].
  split; [simpl; lia|].
  split; [reflexivity|].
  split; reflexivity.
Defined.

(* ================================================================== *)
(** * More on the mails and the cycle *)

Lemma send_startup_email_configured env w cfg :
  email_config (obj w) = Some cfg ->
  send_startup_email env w
  = (Returned (smtp_session env (smtp_calls w)),
     tick_smtp (ESmtp StartupMail "Aurora Monitoring System Started" None
                      (smtp_session env (smtp_calls w))) w).
Proof.
  intro H. unfold send_startup_email, bind, get_self. rewrite H.
  unfold try_except, smtp_send.
  destruct (smtp_session env (smtp_calls w)); reflexivity.
Qed.



Lemma not_visible_south_of_35 loc kp :
  lat loc < 35 ->
  verdict_visible (calculate_aurora_visibility loc kp) = false.
Proof.
  intro H. rewrite verdict_visible_eq. apply Qge_bool_false.
  pose proof (boundary_latitude_range kp) as [Hlo _].
  apply inject_Z_le in Hlo. change (inject_Z 35) with 35 in Hlo.
  apply Qlt_le_trans with 35; assumption.
Qed.

(** X6. An observer south of 35 degrees is never alerted: whatever the
    data source, the clock and the state say, the cycle does not take
    the alert branch, does not return [Alert], leaves the object as it
    was, opens no mail session and prints no alert. *)
Theorem no_alert_south_of_35 :
  forall (env : Env) (w : World),
    lat (user_location (obj w)) < 35 ->
    let r := check_aurora_conditions env w in
    alert_branch env w = false
    /\ fst r <> Returned Alert
    /\ obj (snd r) = obj w
    /\ smtp_calls (snd r) = smtp_calls w
    /\ exists e,
        trace (snd r) = (trace w ++ e)%list
        /\ forallb (fun ev => negb (is_console_alert ev || is_mail ev)) e = true.
Proof.
  intros env w Hlat r. subst r.
  assert (Hab : alert_branch env w = false).
  { unfold alert_branch.
    destruct (fst (fetch_result env (http_calls w))) as [kp|]; [|reflexivity].
    apply andb_false_iff. left. unfold threshold_met.
    apply andb_false_iff. right.
    apply not_visible_south_of_35. exact Hlat. }
  destruct (check_cases env w) as [(Ha & _)|(_ & Hobj & Hs & Hd & He)];
    [congruence|].
  repeat split; assumption.
Qed.

(** Miami, at 25.76 degrees, under an index of 9. *)
Lemma no_alert_south_of_35_witness :
  lat {| lat := 2576 # 100; lon := - (8019 # 100) |} < 35
  /\ fst (check_aurora_conditions
            (steady_env "2024-01-15 12:00:00" 9 (fun _ => 1000) true)
            (boot (init {| lat := 2576 # 100; lon := - (8019 # 100) |} (Some gmail))))
     <> Returned Alert.
Proof.
  assert (H : lat {| lat := 2576 # 100; lon := - (8019 # 100) |} < 35)
    by (unfold Qlt; simpl; lia).
  split; [exact H|].
  destruct (@no_alert_south_of_35
              (steady_env "2024-01-15 12:00:00" 9 (fun _ => 1000) true)
              (boot (init {| lat := 2576 # 100; lon := - (8019 # 100) |} (Some gmail)))
              H)
    as (_ & Hd & _).
  exact Hd.
Defined.

(** X7. With a clock that does not run backwards between the two
    readings of a cycle, a recorded alert time either stays or moves
    forward by more than the cooldown: two alerts are never recorded
    within [alert_cooldown] seconds of each other, and a recorded time
    is never lost. *)
Theorem alerts_are_spaced_by_the_cooldown :
  forall (env : Env) (w : World) (t : Q),
    last_alert_time (obj w) = Some t ->
    time_time env (clock_calls w) <= time_time env (S (clock_calls w)) ->
    exists t',
      last_alert_time (obj (snd (check_aurora_conditions env w))) = Some t'
      /\ (t' = t \/ inject_Z (alert_cooldown (obj w)) < t' - t).
Proof.
  intros env w t Hlast Hclock.
  destruct (check_cases env w) as [(Ha & kp & ts & Hf & Hrun)|(_ & Hobj & _)].
  - exists (time_time env (S (clock_calls w))).
    rewrite Hrun. unfold world_after_alert, cooldown_reads. simpl.
    rewrite Hlast, Nat.add_1_r. split; [reflexivity|]. right.
    unfold alert_branch in Ha. rewrite Hf in Ha. simpl in Ha.
    apply andb_true_iff in Ha. destruct Ha as [_ Hc].
    unfold cooldown_passed in Hc. rewrite Hlast in Hc.
    apply Qgt_bool_iff in Hc.
    revert Hc Hclock. generalize (inject_Z (alert_cooldown (obj w))).
    intros cd Hc Hclock. lra.
  - exists t. rewrite Hobj. split; [exact Hlast|]. left. reflexivity.
Qed.

(** An alert recorded at 1000; the next cycle reads the clock at 5000
    and 5001 and records 5001. *)
Lemma alerts_are_spaced_by_the_cooldown_witness :
  exists t',
    last_alert_time
      (obj (snd (check_aurora_conditions
                   (steady_env "2024-01-15 12:00:00" 8
                               (fun n => nth n [5000; 5001] 5001) true)
                   (boot (with_last_alert_time (init peoria None) 1000)))))
    = Some t'
    /\ (t' = 1000 \/ inject_Z 3600 < t' - 1000).
Proof.
  apply (@alerts_are_spaced_by_the_cooldown
           (steady_env "2024-01-15 12:00:00" 8 (fun n => nth n [5000; 5001] 5001) true)
           (boot (with_last_alert_time (init peoria None) 1000)) 1000).
  - reflexivity.
  - unfold Qle; simpl; lia.
Defined.

(** X8. A map that could not be saved is never passed over.  A cycle
    returns a decision only if it fetched no index or the map was
    saved; when an index was fetched and saving the map fails, the
    exception leaves the method and no mail session is opened, so on an
    alert cycle the alert mail is not sent. *)
Theorem a_failed_map_is_not_passed_over :
  forall (env : Env) (w : World),
    let r := check_aurora_conditions env w in
    (forall d, fst r = Returned d ->
               fst (fetch_result env (http_calls w)) = None
               \/ save_map env (map_calls w) <> None)
    /\ (fst (fetch_result env (http_calls w)) <> None ->
        save_map env (map_calls w) = None ->
        (exists msg, fst r = Raised msg)
        /\ smtp_calls (snd r) = smtp_calls w
        /\ forallb (fun ev => negb (is_mail ev)) (trace (snd r))
           = forallb (fun ev => negb (is_mail ev)) (trace w)).
Proof.
  intros env w r. subst r.
  destruct (fetch_result env (http_calls w)) as [[kp|] ts] eqn:Hf; simpl fst.
  - destruct (save_map env (map_calls w)) as [f|] eqn:Hs.
    + split; [intros d _; right; discriminate|].
      intros _ H. discriminate H.
    + assert (Hrun :
                fst (check_aurora_conditions env w) = Raised "map"
                /\ smtp_calls (snd (check_aurora_conditions env w)) = smtp_calls w
                /\ forallb (fun ev => negb (is_mail ev))
                           (trace (snd (check_aurora_conditions env w)))
                   = forallb (fun ev => negb (is_mail ev)) (trace w)).
      { destruct (threshold_met (obj w) kp
                  && cooldown_passed (obj w) (time_time env (clock_calls w))) eqn:Hb.
        - apply andb_true_iff in Hb. destruct Hb as [Hm Hc].
          rewrite (check_alert_branch env w Hf Hm Hc).
          unfold saved_or_raised, world_after_alert, alert_mail_events.
          rewrite Hs. cbn [fst snd smtp_calls trace List.length].
          split; [reflexivity|]. split; [apply Nat.add_0_r|].
          rewrite !forallb_app. unfold map_event. cbn.
          rewrite !andb_true_r. reflexivity.
        - rewrite (check_report_branch env w Hf Hb).
          unfold saved_or_raised, world_after_report.
          rewrite Hs. cbn [fst snd smtp_calls trace].
          split; [reflexivity|]. split; [reflexivity|].
          rewrite !forallb_app. unfold map_event. cbn.
          rewrite !andb_true_r. reflexivity. }
      destruct Hrun as (Hr & Hsm & Htr).
      split.
      * intros d Hd. rewrite Hr in Hd. discriminate Hd.
      * intros _ _. split; [exists "map"; exact Hr|]. split; assumption.
  - split; [intros d _; left; reflexivity|].
    intros H _. exfalso. apply H. reflexivity.
Qed.

(** Kp 8 at Peoria with a disk that refuses the map: the cycle raises
    and no mail session is opened. *)
Lemma a_failed_map_is_not_passed_over_witness :
  fst (fetch_result
         (read_only_disk_env "2024-01-15 12:00:00" 8 (fun _ => 1000) true) 0)
  <> None
  /\ (exists msg,
         fst (check_aurora_conditions
                (read_only_disk_env "2024-01-15 12:00:00" 8 (fun _ => 1000) true)
                (boot (init peoria (Some gmail))))
         = Raised msg)
  /\ smtp_calls
       (snd (check_aurora_conditions
               (read_only_disk_env "2024-01-15 12:00:00" 8 (fun _ => 1000) true)
               (boot (init peoria (Some gmail)))))
     = 0%nat.
Proof.
  assert (Hf : fst (fetch_result
                      (read_only_disk_env "2024-01-15 12:00:00" 8 (fun _ => 1000) true)
                      0) <> None) by discriminate.
  split; [exact Hf|].
  destruct (a_failed_map_is_not_passed_over
              (read_only_disk_env "2024-01-15 12:00:00" 8 (fun _ => 1000) true)
              (boot (init peoria (Some gmail))))
    as [_ H].
  destruct (H Hf eq_refl) as (H1 & H2 & _).
  split; [exact H1|exact H2].
Defined.



(* ================================================================== *)
(** * [run_once] and what a cycle keeps *)

(** A cycle sees the world only through the object and the counts of
    fetches, clock readings and maps: what mail was sent before does
    not matter to it. *)
Lemma check_same_but_mail env w w0 :
  same_but_mail w w0 ->
  fst (check_aurora_conditions env w0) = fst (check_aurora_conditions env w)
  /\ same_but_mail (snd (check_aurora_conditions env w))
                   (snd (check_aurora_conditions env w0)).
Proof.
  intros (Hobj & Hh & Hc & Hm).
  destruct (fetch_result env (http_calls w)) as [[kp|] ts] eqn:Hf.
  - assert (Hf0 : fetch_result env (http_calls w0) = (Some kp, ts))
      by (rewrite Hh; exact Hf).
    destruct (threshold_met (obj w) kp
              && cooldown_passed (obj w) (time_time env (clock_calls w))) eqn:Hb.
    + assert (Hb0 := Hb). rewrite <- Hobj, <- Hc in Hb0.
      apply andb_true_iff in Hb. destruct Hb as [Hmet Hcool].
      apply andb_true_iff in Hb0. destruct Hb0 as [Hmet0 Hcool0].
      rewrite (check_alert_branch env w Hf Hmet Hcool).
      rewrite (check_alert_branch env w0 Hf0 Hmet0 Hcool0).
      unfold same_but_mail. simpl. rewrite Hobj, Hh, Hc, Hm. repeat split.
    + assert (Hb0 := Hb). rewrite <- Hobj, <- Hc in Hb0.
      rewrite (check_report_branch env w Hf Hb).
      rewrite (check_report_branch env w0 Hf0 Hb0).
      unfold same_but_mail. simpl. rewrite Hobj, Hh, Hc, Hm. repeat split.
  - rewrite (check_no_data env w) by (rewrite Hf; reflexivity).
    rewrite (check_no_data env w0) by (rewrite Hh, Hf; reflexivity).
    unfold same_but_mail. simpl. rewrite Hobj, Hh, Hc, Hm. repeat split.
Qed.

(** A cycle only adds to the record of events. *)
Lemma check_appends env w :
  exists e, trace (snd (check_aurora_conditions env w)) = (trace w ++ e)%list.
Proof.
  destruct (check_cases env w) as [(_ & kp & ts & _ & Hrun)|(_ & _ & _ & _ & e & He & _)].
  - rewrite Hrun. simpl. eexists. reflexivity.
  - exists e. exact He.
Qed.

Lemma run_once_run env w :
  run_once env w
  = check_aurora_conditions env
      (match email_config (obj w) with
       | Some _ =>
           tick_smtp (ESmtp StartupMail "Aurora Monitoring System Started" None
                            (smtp_session env (smtp_calls w))) w
       | None => w
       end).
Proof.
  unfold run_once. unfold get_self at 1. unfold bind at 1.
  destruct (email_config (obj w)) as [cfg|] eqn:Hc; [|reflexivity].
  rewrite (bind_returned _ (send_startup_email_configured env w Hc)).
  reflexivity.
Qed.

Lemma run_once_obj env w :
  obj (snd (run_once env w)) = obj (snd (check_aurora_conditions env w)).
Proof.
  rewrite run_once_run.
  destruct (email_config (obj w)); [|reflexivity].
  set (w0 := tick_smtp _ w).
  assert (Hsame : same_but_mail w w0) by (repeat split).
  destruct (check_same_but_mail env Hsame) as (_ & Hobj & _). exact Hobj.
Qed.

(** X10. [run_once] decides as a bare cycle does: the startup mail,
    sent first when mail is configured, changes neither what the cycle
    returns, nor the object it leaves, nor the fetches, clock readings
    and maps it takes, and a failed startup mail does not stop the
    cycle.  With mail configured the startup session is the first event
    of the run. *)
Theorem run_once_decides_as_a_cycle :
  forall (env : Env) (w : World),
    fst (run_once env w) = fst (check_aurora_conditions env w)
    /\ obj (snd (run_once env w)) = obj (snd (check_aurora_conditions env w))
    /\ http_calls (snd (run_once env w))
       = http_calls (snd (check_aurora_conditions env w))
    /\ clock_calls (snd (run_once env w))
       = clock_calls (snd (check_aurora_conditions env w))
    /\ map_calls (snd (run_once env w))
       = map_calls (snd (check_aurora_conditions env w))
    /\ (email_config (obj w) = None ->
        run_once env w = check_aurora_conditions env w)
    /\ (email_config (obj w) <> None ->
        exists rest,
          trace (snd (run_once env w))
          = (trace w
               ++ ESmtp StartupMail "Aurora Monitoring System Started" None
                        (smtp_session env (smtp_calls w)) :: rest)%list).
Proof.
  intros env w. rewrite run_once_run.
  destruct (email_config (obj w)) as [cfg|] eqn:Hc.
  - set (w0 := tick_smtp _ w).
    assert (Hsame : same_but_mail w w0) by (repeat split).
    destruct (check_same_but_mail env Hsame) as (Hfst & Hobj & Hh & Hcl & Hm).
    repeat (split; [assumption|]).
    split; [discriminate|].
    intros _. destruct (check_appends env w0) as [e He].
    exists e. rewrite He. subst w0. simpl. rewrite <- app_assoc. reflexivity.
  - repeat (split; [reflexivity|]).
    intro H. exfalso. apply H. reflexivity.
Qed.

(** A failed startup mail, then an alert on Kp 8. *)
Lemma run_once_decides_as_a_cycle_witness :
  email_config (obj (boot (init peoria (Some gmail)))) <> None
  /\ fst (run_once (steady_env "2024-01-15 12:00:00" 8 (fun _ => 1000) false)
                   (boot (init peoria (Some gmail))))
     = Returned Alert
  /\ exists rest,
      trace (snd (run_once (steady_env "2024-01-15 12:00:00" 8 (fun _ => 1000) false)
                           (boot (init peoria (Some gmail)))))
      = ESmtp StartupMail "Aurora Monitoring System Started" None false :: rest.
Proof.
  assert (Hc : email_config (obj (boot (init peoria (Some gmail)))) <> None)
    by discriminate.
  split; [exact Hc|].
  destruct (run_once_decides_as_a_cycle
              (steady_env "2024-01-15 12:00:00" 8 (fun _ => 1000) false)
              (boot (init peoria (Some gmail))))
    as (Hfst & _ & _ & _ & _ & _ & Htrace).
  split; [rewrite Hfst; reflexivity|].
  destruct (Htrace Hc) as [rest Hrest].
  exists rest. exact Hrest.
Defined.

(** X11. No method changes the location, the threshold, the cooldown
    or the mail configuration: a cycle and [run_once] keep all four,
    and drawing the map, fetching and formatting keep the whole
    object.  A recorded alert time is never cleared. *)
Theorem configuration_is_never_changed :
  forall (env : Env) (w : World),
    same_config (obj w) (obj (snd (check_aurora_conditions env w)))
    /\ same_config (obj w) (obj (snd (run_once env w)))
    /\ obj (snd (create_aurora_map env w)) = obj w
    /\ obj (snd (get_kp_index env w)) = obj w
    /\ (forall ts, obj (snd (format_timestamp env ts w)) = obj w)
    /\ (last_alert_time (obj w) <> None ->
        last_alert_time (obj (snd (check_aurora_conditions env w))) <> None).
Proof.
  intros env w.
  assert (Hcheck : same_config (obj w) (obj (snd (check_aurora_conditions env w)))
                   /\ (last_alert_time (obj w) <> None ->
                       last_alert_time (obj (snd (check_aurora_conditions env w)))
                       <> None)).
  { destruct (check_cases env w) as [(_ & kp & ts & _ & Hrun)|(_ & Hobj & _)].
    - rewrite Hrun. simpl. split; [repeat split|]. discriminate.
    - rewrite Hobj. split; [repeat split|]. tauto. }
  destruct Hcheck as [Hcfg Hlast].
  split; [exact Hcfg|].
  split.
  { rewrite run_once_obj. exact Hcfg. }
  split; [rewrite create_aurora_map_run; reflexivity|].
  split; [rewrite get_kp_index_run; reflexivity|].
  split; [intro ts; rewrite format_timestamp_run; reflexivity|].
  exact Hlast.
Qed.

(** A cycle that alerts: the time is recorded, the rest is kept. *)
Lemma configuration_is_never_changed_witness :
  last_alert_time
    (obj (boot (with_last_alert_time (init peoria (Some gmail)) 1000))) <> None
  /\ last_alert_time
       (obj (snd (check_aurora_conditions
                    (steady_env "2024-01-15 12:00:00" 8 (fun _ => 9000) true)
                    (boot (with_last_alert_time (init peoria (Some gmail)) 1000)))))
     <> None
  /\ email_config
       (obj (snd (check_aurora_conditions
                    (steady_env "2024-01-15 12:00:00" 8 (fun _ => 9000) true)
                    (boot (with_last_alert_time (init peoria (Some gmail)) 1000)))))
     = Some gmail.
Proof.
  assert (H0 : last_alert_time
                 (obj (boot (with_last_alert_time (init peoria (Some gmail)) 1000)))
               <> None) by discriminate.
  split; [exact H0|].
  destruct (configuration_is_never_changed
              (steady_env "2024-01-15 12:00:00" 8 (fun _ => 9000) true)
              (boot (with_last_alert_time (init peoria (Some gmail)) 1000)))
    as ((_ & _ & _ & Hcfg) & _ & _ & _ & _ & Hlast).
  split; [exact (Hlast H0)|exact Hcfg].
Defined.

(* ================================================================== *)
(** * What the map shows *)

(** X12. Whatever the index, the drawing stays on the globe.  The
    visibility line has 73 points at the boundary latitude, from
    longitude -180 to 180; the zone is a ring of 74 vertices, the south
    edge at the boundary from west to east and the north edge at 90
    back from east to west, every vertex between the boundary and 90
    degrees.  The observer's marker is orange exactly when the observer
    is at or north of the south edge, red otherwise, and the distance
    in its popup is then the gap to that edge. *)
Theorem map_stays_on_the_globe :
  forall (loc : Location) (kp : Q),
    let v := calculate_aurora_visibility loc kp in
    let vl := verdict_boundary v in
    List.length (aurora_points vl) = 73%nat
    /\ List.length (aurora_zone vl) = 74%nat
    /\ Forall (fun p => fst p = vl /\ (-180 <= snd p <= 180)%Z) (aurora_points vl)
    /\ hd_error (aurora_points vl) = Some (vl, (-180)%Z)
    /\ List.last (aurora_points vl) (0, 0)%Z = (vl, 180%Z)
    /\ Forall (fun p => (35 <= vl <= fst p)%Z /\ (fst p <= 90)%Z
                        /\ (-180 <= snd p <= 180)%Z) (aurora_zone vl)
    /\ hd_error (aurora_zone vl) = Some (vl, (-180)%Z)
    /\ nth_error (aurora_zone vl) 36 = Some (vl, 180%Z)
    /\ nth_error (aurora_zone vl) 37 = Some (90%Z, 180%Z)
    /\ List.last (aurora_zone vl) (0, 0)%Z = (90%Z, (-180)%Z)
    /\ (user_color (verdict_visible v) = "orange" <-> inject_Z vl <= lat loc)
    /\ (user_color (verdict_visible v) = "red" <-> lat loc < inject_Z vl)
    /\ (user_color (verdict_visible v) = "red" ->
        distance_to_aurora loc vl == inject_Z vl - lat loc).
Proof.
  intros loc kp v vl. subst v vl.
  rewrite verdict_boundary_eq, verdict_visible_eq.
  pose proof (boundary_latitude_range kp) as Hr.
  generalize dependent (boundary_latitude kp). intros vl Hr.
  split; [reflexivity|]. split; [reflexivity|].
  split.
  { unfold aurora_points, py_range. cbn.
    repeat (constructor; [cbn; split; [reflexivity|lia]|]). constructor. }
  split; [reflexivity|]. split; [reflexivity|].
  split.
  { unfold aurora_zone, py_range. cbn.
    repeat (constructor; [cbn; lia|]). constructor. }
  split; [reflexivity|]. split; [reflexivity|].
  split; [reflexivity|]. split; [reflexivity|].
  unfold user_color, distance_to_aurora.
  destruct (Qge_bool (lat loc) (inject_Z vl)) eqn:E; cbn [negb].
  - apply Qge_bool_iff in E.
    split; [tauto|].
    split; [|discriminate].
    split; [discriminate|].
    intro H. exfalso. apply (Qlt_irrefl (lat loc)).
    apply Qlt_le_trans with (inject_Z vl); assumption.
  - apply Qge_bool_false in E.
    split.
    + split; [discriminate|].
      intro H. exfalso. apply (Qlt_irrefl (lat loc)).
      apply Qlt_le_trans with (inject_Z vl); assumption.
    + split; [tauto|].
      intros _. revert E. generalize (inject_Z vl). intros b E.
      eapply Qeq_trans; [apply Qabs_neg; lra|ring].
Qed.

(** Peoria under an index of 5: the marker is red, 14.3336 degrees
    south of the line. *)
Lemma map_stays_on_the_globe_witness :
  user_color (verdict_visible (calculate_aurora_visibility peoria 5)) = "red"
  /\ distance_to_aurora peoria
       (verdict_boundary (calculate_aurora_visibility peoria 5))
     == 143336 # 10000.
Proof.
  destruct (map_stays_on_the_globe peoria 5)
    as (_ & _ & _ & _ & _ & _ & _ & _ & _ & _ & _ & _ & H).
  split; [reflexivity|].
  rewrite (H eq_refl). reflexivity.
Defined.

(* ================================================================== *)
(** * When mail goes out *)




